(** * IMDb rating classification API: the inference-serving core of [main.py]

    A shallow embedding of the request handlers of [main.py] and of the
    lazily loaded, process-wide model cache they share, followed by the
    properties of the specification that concern them.

    Python values are embedded as the inductive [value]; floats as rationals
    ([Q]: comparison and maximum of finite floats are exact, so nothing is
    lost for the properties below); exceptions as the inductive [exn];
    the two module globals [_model] and [_metadata] as the record [globals];
    and the handlers as computations in a state-and-exception monad that also
    records the file-system accesses they perform. *)

From Stdlib Require Import List String ZArith QArith Lia Lqa.
From Stdlib Require Import DecimalString.
Import ListNotations.

Local Close Scope Q_scope.
Local Open Scope string_scope.
Local Open Scope list_scope.

(** ** Python values *)

(** What [json.load] can return, what a response can carry, and what an
    estimator can hand back as a label. *)
#[local] Set Warnings "-register-all".
Inductive value : Type :=
| VNone
| VBool (b : bool)
| VNum (q : Q)
| VStr (s : string)
| VList (l : list value)
| VDict (d : list (string * value)).

(** [x is None] *)
Definition is_None (v : value) : bool :=
  match v with VNone => true | _ => false end.

(** Python truth value, as tested by [if metadata:]. *)
Definition truthy (v : value) : bool :=
  match v with
  | VNone => false
  | VBool b => b
  | VNum q => negb (Qeq_bool q 0)
  | VStr s => negb (String.eqb s "")
  | VList l => match l with [] => false | _ :: _ => true end
  | VDict d => match d with [] => false | _ :: _ => true end
  end.

(** Lookup of a key among the items of a dict. *)
Fixpoint lookup (k : string) (d : list (string * value)) : option value :=
  match d with
  | [] => None
  | (k', v) :: d' => if String.eqb k k' then Some v else lookup k d'
  end.

(** ** Exceptions *)

(** [FileNotFoundError] is kept apart because [predict] has a handler of its
    own for it; every other library exception is a [PyException] with its
    class name; [HTTPException] is the one the handlers raise themselves. *)
Inductive exn : Type :=
| FileNotFoundError (msg : string)
| PyException (cls : string) (msg : string)
| HTTPException (status_code : nat) (detail : string).

(** [str(e)] *)
Definition str (e : exn) : string :=
  match e with
  | FileNotFoundError msg => msg
  | PyException _ msg => msg
  | HTTPException status_code detail =>
      NilEmpty.string_of_uint (Nat.to_uint status_code) ++ ": " ++ detail
  end.

(** [d.get(k, default)]; anything but a dict has no attribute [get]. *)
Definition get (v : value) (k : string) (default : value) : exn + value :=
  match v with
  | VDict d => inr (match lookup k d with Some x => x | None => default end)
  | _ => inl (PyException "AttributeError" "object has no attribute 'get'")
  end.

(** ** Request and response models *)

Record MovieFeatures : Type := {
  startYear : Q;
  runtimeMinutes : Q;
  numVotes : Q;
  averageRating : Q;
  runtime_category : string;
  popularity : string
}.

Record PredictRequest : Type := {
  movies : list MovieFeatures
}.

Record PredictionResult : Type := {
  rating_category : string;
  confidence : option Q
}.

Record PredictResponse : Type := {
  predictions : list PredictionResult;
  model_name : string;
  model_metrics : list (string * value)
}.

(** [movie.model_dump()] *)
Definition model_dump (movie : MovieFeatures) : list (string * value) :=
  [ ("startYear", VNum (startYear movie));
    ("runtimeMinutes", VNum (runtimeMinutes movie));
    ("numVotes", VNum (numVotes movie));
    ("averageRating", VNum (averageRating movie));
    ("runtime_category", VStr (runtime_category movie));
    ("popularity", VStr (popularity movie)) ].

(** A data frame built from a list of dicts: one row per dict, in order. *)
Definition DataFrame : Type := list (list (string * value)).

Definition pd_DataFrame (movies_data : list (list (string * value))) : DataFrame :=
  movies_data.

(** ** The trained artifact *)

(** The unpickled estimator is opaque: all the service knows is that it is
    asked to [predict] on a data frame, and that it may or may not have a
    [predict_proba] attribute.  Either call may raise.  A probability matrix
    is the list of its rows. *)
Module Model.

Record t : Type := {
  predict : DataFrame -> exn + list value;
  predict_proba : option (DataFrame -> exn + list (list Q))
}.

End Model.

(** ** The process and its environment *)

(** What lies behind a path.  [Inaccessible ex]: the path cannot even be
    tested, [Path.exists()] raises [ex] (any [OSError] other than "no such
    file", a permission error for one).  [Stat content]: the test returns.
    Then [None] stands for no file at the path, and [Some r] for a file whose
    reading yields [r], either an exception or the loaded object
    ([joblib.load] may yield Python's [None], which is [inr None] here;
    [json.load] yields [VNone] for [null]).  A [content] is read as the
    [file] whose test returns it. *)
Inductive file (A : Type) : Type :=
| Inaccessible (ex : exn)
| Stat (content : option (exn + A)).

Arguments Inaccessible {A} ex.
Arguments Stat {A} content.

#[warning="-uniform-inheritance"]
Coercion Stat : option >-> file.

(** The two configured paths and what lies behind them. *)
Record env : Type := {
  MODEL_PATH : string;
  METADATA_PATH : string;
  model_file : file (option Model.t);
  metadata_file : file value
}.

(** Module-level globals. *)
Record globals : Type := {
  _model : option Model.t;
  _metadata : value
}.

(** State of a fresh process. *)
Definition unloaded : globals := {| _model := None; _metadata := VNone |}.

(** File-system accesses, recorded in the order they happen. *)
Inductive io_event : Type :=
| ExistsModel      (* MODEL_PATH.exists() *)
| JoblibLoad       (* joblib.load(MODEL_PATH) *)
| ExistsMetadata   (* METADATA_PATH.exists() *)
| JsonLoad.        (* open(METADATA_PATH) and json.load *)

Definition io_event_eqb (a b : io_event) : bool :=
  match a, b with
  | ExistsModel, ExistsModel | JoblibLoad, JoblibLoad
  | ExistsMetadata, ExistsMetadata | JsonLoad, JsonLoad => true
  | _, _ => false
  end.

(** Number of occurrences of an event in a trace. *)
Definition count (ev : io_event) (tr : list io_event) : nat :=
  List.length (filter (io_event_eqb ev) tr).

(** ** State, exceptions and trace *)

Definition M (A : Type) : Type := globals -> (exn + A) * globals * list io_event.

Definition ret {A} (a : A) : M A := fun g => (inr a, g, []).

Definition raise {A} (e : exn) : M A := fun g => (inl e, g, []).

Definition bind {A B} (c : M A) (k : A -> M B) : M B :=
  fun g =>
    match c g with
    | (inl e, g1, tr1) => (inl e, g1, tr1)
    | (inr a, g1, tr1) =>
        let '(r, g2, tr2) := k a g1 in (r, g2, tr1 ++ tr2)
    end.

(** [try: c except Exception as e: h e]: what [c] did to the globals before
    raising stays done. *)
Definition try_except {A} (c : M A) (h : exn -> M A) : M A :=
  fun g =>
    match c g with
    | (inl e, g1, tr1) =>
        let '(r, g2, tr2) := h e g1 in (r, g2, tr1 ++ tr2)
    | (inr a, g1, tr1) => (inr a, g1, tr1)
    end.

Definition read : M globals := fun g => (inr g, g, []).

Definition write (g' : globals) : M unit := fun _ => (inr tt, g', []).

Definition emit (ev : io_event) : M unit := fun g => (inr tt, g, [ev]).

(** A computation that touches neither globals nor files. *)
Definition lift {A} (r : exn + A) : M A := fun g => (r, g, []).

Declare Scope py_scope.
Delimit Scope py_scope with py.
Notation "x <- c ;; k" := (bind c (fun x => k))
  (at level 61, c at next level, right associativity) : py_scope.
Notation "c ;;; k" := (bind c (fun _ => k))
  (at level 61, right associativity) : py_scope.
Local Open Scope py_scope.

(** Accessors of the three projections of a run. *)
Definition result {A} (x : (exn + A) * globals * list io_event) : exn + A := fst (fst x).
Definition final {A} (x : (exn + A) * globals * list io_event) : globals := snd (fst x).
Definition trace {A} (x : (exn + A) * globals * list io_event) : list io_event := snd x.

(** ** File-system primitives *)

(** Whether a path can be tested and there is a file behind it. *)
Definition present {A} (f : file A) : bool :=
  match f with
  | Stat (Some _) => true
  | Stat None => false
  | Inaccessible _ => false
  end.

(** [Path.exists()]: [True] or [False] when the test returns, and the
    exception of the test when it does not. *)
Definition exists_ {A} (f : file A) : M bool :=
  match f with
  | Inaccessible ex => raise ex
  | Stat (Some _) => ret true
  | Stat None => ret false
  end.

Definition MODEL_PATH_exists (e : env) : M bool :=
  emit ExistsModel ;;;
  exists_ (model_file e).

Definition METADATA_PATH_exists (e : env) : M bool :=
  emit ExistsMetadata ;;;
  exists_ (metadata_file e).

Definition joblib_load (e : env) : M (option Model.t) :=
  emit JoblibLoad ;;;
  match model_file e with
  | Stat (Some r) => lift r
  | Stat None | Inaccessible _ =>
      raise (FileNotFoundError ("No such file or directory: " ++ MODEL_PATH e))
  end.

Definition json_load (e : env) : M value :=
  emit JsonLoad ;;;
  match metadata_file e with
  | Stat (Some r) => lift r
  | Stat None | Inaccessible _ =>
      raise (FileNotFoundError ("No such file or directory: " ++ METADATA_PATH e))
  end.

(** ** [load_model] *)

Definition load_model (e : env) : M (option Model.t * value) :=
  g <- read ;;
  match _model g with
  | None =>
      ex <- MODEL_PATH_exists e ;;
      if negb ex
      then raise (FileNotFoundError ("Model not found at " ++ MODEL_PATH e))
      else
        m <- joblib_load e ;;
        g <- read ;;
        write {| _model := m; _metadata := _metadata g |}
  | Some _ => ret tt
  end ;;;
  g <- read ;;
  (if is_None (_metadata g)
   then
     ex <- METADATA_PATH_exists e ;;
     if ex
     then
       md <- json_load e ;;
       g <- read ;;
       write {| _model := _model g; _metadata := md |}
     else ret tt
   else ret tt) ;;;
  g <- read ;;
  ret (_model g, _metadata g).

(** ** Pure steps of the inference block *)

(** Sequencing of steps that may raise but touch no state. *)
Definition and_then {A B} (r : exn + A) (k : A -> exn + B) : exn + B :=
  match r with
  | inl e => inl e
  | inr a => k a
  end.

Notation "x <~ r ;; k" := (and_then r (fun x => k))
  (at level 61, r at next level, right associativity) : py_scope.

(** Largest entry of a row whose first entry is [x]. *)
Fixpoint row_max (x : Q) (xs : list Q) : Q :=
  match xs with
  | [] => x
  | y :: ys => row_max (if Qle_bool x y then y else x) ys
  end.

(** [proba.max(axis=1).tolist()]: numpy refuses to reduce a row without
    entries. *)
Fixpoint max_axis1 (proba : list (list Q)) : exn + list Q :=
  match proba with
  | [] => inr []
  | [] :: _ =>
      inl (PyException "ValueError"
             "zero-size array to reduction operation maximum which has no identity")
  | (x :: xs) :: rest =>
      ms <~ max_axis1 rest ;;
      inr (row_max x xs :: ms)
  end.

(** [probs[i] if probs else None]: [probs] is tested for being a non-empty
    list, and only then indexed. *)
Definition confidence_at (probs : option (list Q)) (i : nat) : exn + option Q :=
  match probs with
  | Some (p :: ps) =>
      match nth_error (p :: ps) i with
      | Some c => inr (Some c)
      | None => inl (PyException "IndexError" "list index out of range")
      end
  | Some [] => inr None
  | None => inr None
  end.

(** Construction of a [PredictionResult]: pydantic accepts a string as
    [rating_category] and nothing else. *)
Definition new_PredictionResult (pred : value) (conf : option Q) : exn + PredictionResult :=
  match pred with
  | VStr s => inr {| rating_category := s; confidence := conf |}
  | _ => inl (PyException "ValidationError"
                "1 validation error for PredictionResult: rating_category")
  end.

(** Construction of a [PredictResponse]: [model_name] must be a string and
    [model_metrics] a dict. *)
Definition new_PredictResponse (results : list PredictionResult)
    (name metrics : value) : exn + PredictResponse :=
  match name, metrics with
  | VStr s, VDict d =>
      inr {| predictions := results; model_name := s; model_metrics := d |}
  | _, _ => inl (PyException "ValidationError"
                   "validation error for PredictResponse")
  end.

(** The loop [for i, pred in enumerate(predictions)], from index [i] on, with
    the [results] appended so far. *)
Fixpoint build_results (predictions : list value) (probs : option (list Q))
    (i : nat) (results : list PredictionResult) : exn + list PredictionResult :=
  match predictions with
  | [] => inr results
  | pred :: rest =>
      conf <~ confidence_at probs i ;;
      result <~ new_PredictionResult pred conf ;;
      build_results rest probs (S i) (results ++ [result])
  end.

(** [model.predict(X)]; the loaded object may be Python's [None]. *)
Definition call_predict (model : option Model.t) (X : DataFrame) : exn + list value :=
  match model with
  | Some m => Model.predict m X
  | None => inl (PyException "AttributeError"
                   "'NoneType' object has no attribute 'predict'")
  end.

(** The probabilities step: [probs] stays [None] unless
    [hasattr(model, "predict_proba")]. *)
Definition call_probs (model : option Model.t) (X : DataFrame) : exn + option (list Q) :=
  match model with
  | Some m =>
      match Model.predict_proba m with
      | Some f =>
          proba <~ f X ;;
          probs <~ max_axis1 proba ;;
          inr (Some probs)
      | None => inr None
      end
  | None => inr None
  end.

(** The body of the second [try] of [predict]. *)
Definition inference (model : option Model.t) (metadata : value)
    (payload : PredictRequest) : exn + PredictResponse :=
  let movies_data := map model_dump (movies payload) in
  let X := pd_DataFrame movies_data in
  predictions <~ call_predict model X ;;
  probs <~ call_probs model X ;;
  results <~ build_results predictions probs 0 [] ;;
  model_name <~ (if truthy metadata
                 then get metadata "model_name" (VStr "unknown")
                 else inr (VStr "unknown")) ;;
  model_metrics <~ (if truthy metadata
                    then get metadata "metrics" (VDict [])
                    else inr (VDict [])) ;;
  new_PredictResponse results model_name model_metrics.

(** ** The handlers *)

(** [GET /health] *)
Definition health (e : env) : M value :=
  try_except
    (model_exists <- MODEL_PATH_exists e ;;
     metadata_exists <- METADATA_PATH_exists e ;;
     ret (VDict
            [ ("status", VStr (if model_exists then "healthy" else "model_missing"));
              ("model_path", VStr (MODEL_PATH e));
              ("model_exists", VBool model_exists);
              ("metadata_exists", VBool metadata_exists) ]))
    (fun ex => ret (VDict [ ("status", VStr "error"); ("detail", VStr (str ex)) ])).

(** [GET /model-info] *)
Definition model_info (e : env) : M value :=
  try_except
    (r <- load_model e ;;
     let metadata := snd r in
     if truthy metadata
     then ret metadata
     else ret (VDict [ ("message", VStr "No metadata available") ]))
    (fun ex => raise (HTTPException 500 (str ex))).

(** [POST /predict] *)
Definition predict (e : env) (payload : PredictRequest) : M PredictResponse :=
  r <- try_except (load_model e)
         (fun ex =>
            match ex with
            | FileNotFoundError _ => raise (HTTPException 503 (str ex))
            | _ => raise (HTTPException 500 ("Error loading model: " ++ str ex))
            end) ;;
  let model := fst r in
  let metadata := snd r in
  match movies payload with
  | [] => raise (HTTPException 400 "'movies' list cannot be empty")
  | _ :: _ =>
      try_except (lift (inference model metadata payload))
        (fun ex => raise (HTTPException 500 ("Inference error: " ++ str ex)))
  end.

(** A sequence of calls to [load_model], one per environment, each starting
    from the globals the previous one left; the runs are returned in order. *)
Fixpoint load_model_calls (es : list env) (g : globals)
    : list ((exn + (option Model.t * value)) * globals * list io_event) :=
  match es with
  | [] => []
  | e :: es' =>
      let run := load_model e g in
      run :: load_model_calls es' (final run)
  end.

(** The environments in which loading the model fails: no file at
    [MODEL_PATH], or a file that [joblib.load] cannot deserialize. *)
Definition model_load_fails (e : env) : Prop :=
  model_file e = None \/ exists ex, model_file e = Some (inl ex).

(** The environments in which the metadata document is there but does not
    parse. *)
Definition metadata_parse_fails (e : env) : Prop :=
  exists ex, metadata_file e = Some (inl ex).

(** The member [k] of a document, when the document is a JSON object that
    has one. *)
Definition field (doc : value) (k : string) : option value :=
  match doc with
  | VDict d => lookup k d
  | _ => None
  end.

(** [c] is the largest entry of [row]. *)
Definition is_max (c : Q) (row : list Q) : Prop :=
  In c row /\ Forall (fun p => (p <= c)%Q) row.

(** Entries of a probability distribution over the labels. *)
Definition probabilities (row : list Q) : Prop :=
  Forall (fun p => (0 <= p)%Q /\ (p <= 1)%Q) row.

(** A label that pydantic accepts as [rating_category]. *)
Definition is_label (v : value) : Prop := exists s, v = VStr s.

(** Metadata with which the response can be built: none or an empty
    document, or a JSON object whose [model_name], if any, is a string and
    whose [metrics], if any, is an object. *)
Definition usable_metadata (metadata : value) : Prop :=
  truthy metadata = false
  \/ exists d,
       metadata = VDict d
       /\ (lookup "model_name" d = None \/ exists s, lookup "model_name" d = Some (VStr s))
       /\ (lookup "metrics" d = None \/ exists ms, lookup "metrics" d = Some (VDict ms)).

(** A model that answers the data frame [X] as an estimator should: one
    string label per row, and, if it has [predict_proba], one non-empty row
    of the matrix per row of [X]. *)
Definition answers (m : Model.t) (X : DataFrame) : Prop :=
  (exists labels,
     Model.predict m X = inr labels
     /\ List.length labels = List.length X
     /\ Forall is_label labels)
  /\ match Model.predict_proba m with
     | Some predict_proba =>
         exists proba,
           predict_proba X = inr proba
           /\ List.length proba = List.length X
           /\ Forall (fun row => row <> []) proba
     | None => True
     end.

(** ** The application *)

(** [GET /]: the static listing of the endpoints. *)
Definition root : M value :=
  ret (VDict
         [ ("message", VStr "IMDb Rating Classification API");
           ("version", VStr "1.0.0");
           ("endpoints",
            VDict [ ("/health", VStr "Health check");
                    ("/predict", VStr "Predict rating category");
                    ("/model-info", VStr "Model information") ]) ]).

(** The four routes registered on [app]. *)
Inductive endpoint : Type :=
| GetRoot                                 (* @app.get("/") *)
| GetHealth                               (* @app.get("/health") *)
| GetModelInfo                            (* @app.get("/model-info") *)
| PostPredict (payload : PredictRequest). (* @app.post("/predict") *)

(** What a handler hands back to the framework. *)
Inductive body : Type :=
| Json (v : value)
| Prediction (response : PredictResponse).

(** The handler registered for an endpoint, run on a request. *)
Definition serve (e : env) (ep : endpoint) : M body :=
  match ep with
  | GetRoot => v <- root ;; ret (Json v)
  | GetHealth => v <- health e ;; ret (Json v)
  | GetModelInfo => v <- model_info e ;; ret (Json v)
  | PostPredict payload => r <- predict e payload ;; ret (Prediction r)
  end.

(** The life of a process: the requests it serves one after the other, each
    in the environment of its time, each starting from the globals the
    previous one left.  [after] gives the globals at the end. *)
Fixpoint after (requests : list (env * endpoint)) (g : globals) : globals :=
  match requests with
  | [] => g
  | (e, ep) :: rest => after rest (final (serve e ep g))
  end.

(** The file-system accesses of a sequence of requests, in order. *)
Fixpoint accesses (requests : list (env * endpoint)) (g : globals) : list io_event :=
  match requests with
  | [] => []
  | (e, ep) :: rest =>
      trace (serve e ep g) ++ accesses rest (final (serve e ep g))
  end.

(** Whether the handler of an endpoint calls [load_model]. *)
Definition loads (ep : endpoint) : bool :=
  match ep with
  | GetModelInfo | PostPredict _ => true
  | GetRoot | GetHealth => false
  end.

(** Sum of the entries of a row. *)
Fixpoint row_sum (row : list Q) : Q :=
  match row with
  | [] => 0%Q
  | p :: ps => (p + row_sum ps)%Q
  end.

(** The condition under which the inference block returns: the model
    returns string labels; if it has [predict_proba], that returns a matrix
    without an empty row that is empty itself or has a row for every label;
    and the response can be built from the metadata. *)
Definition servable (m : Model.t) (metadata : value) (X : DataFrame) : Prop :=
  usable_metadata metadata
  /\ exists labels,
       Model.predict m X = inr labels
       /\ Forall is_label labels
       /\ match Model.predict_proba m with
          | Some predict_proba =>
              exists proba,
                predict_proba X = inr proba
                /\ Forall (fun row => row <> []) proba
                /\ (proba = [] \/ List.length labels <= List.length proba)
          | None => True
          end.

(** ** Sample data *)

Definition stub_model : Model.t :=
  {| Model.predict := fun X => inr (map (fun _ => VStr "Good") X);
     Model.predict_proba :=
       Some (fun X => inr (map (fun _ => [5 # 100; 91 # 100; 4 # 100]%Q) X)) |}.

Definition plain_model : Model.t :=
  {| Model.predict := fun X => inr (map (fun _ => VStr "Average") X);
     Model.predict_proba := None |}.

(** A model whose [predict_proba] returns a single row whatever the batch. *)
Definition one_row_model : Model.t :=
  {| Model.predict := fun X => inr (map (fun _ => VStr "Good") X);
     Model.predict_proba := Some (fun _ => inr [[1 # 4; 3 # 4]%Q]) |}.

(** A metadata document whose [model_name] is a number. *)
Definition numbered_metadata : value :=
  VDict [ ("model_name", VNum 3) ].

Definition rf_v2 : value :=
  VDict [ ("model_name", VStr "rf_v2"); ("metrics", VDict [ ("f1", VNum (82 # 100)) ]) ].

Definition movie_2005 : MovieFeatures :=
  {| startYear := 2005; runtimeMinutes := 120; numVotes := 5000;
     averageRating := 72 # 10; runtime_category := "medium"; popularity := "high" |}.

Definition sample_env (mf : option (exn + option Model.t))
    (mdf : option (exn + value)) : env :=
  {| MODEL_PATH := "models/best_model.pkl";
     METADATA_PATH := "models/best_model_metadata.json";
     model_file := mf; metadata_file := mdf |}.

Definition unpickling_error : exn :=
  PyException "UnpicklingError" "invalid load key, 'x'.".

Definition json_decode_error : exn :=
  PyException "JSONDecodeError" "Expecting value: line 1 column 1 (char 0)".

Definition permission_error : exn :=
  PyException "PermissionError" "[Errno 13] Permission denied: 'models/best_model.pkl'".

(** An environment whose model path cannot be tested. *)
Definition locked_env : env :=
  {| MODEL_PATH := "models/best_model.pkl";
     METADATA_PATH := "models/best_model_metadata.json";
     model_file := Inaccessible permission_error;
     metadata_file := None |}.

(** A process that has loaded [stub_model] and found no metadata. *)
Definition loaded_stub : globals :=
  {| _model := Some stub_model; _metadata := VNone |}.

Definition no_metadata_message : value :=
  VDict [ ("message", VStr "No metadata available") ].

Definition empty_request : PredictRequest := {| movies := [] |}.

(** The stub model that labels every movie "Good" with probability 0.91. *)
Example predict_stub :
  result (predict (sample_env (Some (inr (Some stub_model))) (Some (inr rf_v2)))
            {| movies := [movie_2005] |} unloaded)
  = inr {| predictions := [ {| rating_category := "Good"; confidence := Some (91 # 100)%Q |} ];
           model_name := "rf_v2";
           model_metrics := [ ("f1", VNum (82 # 100)) ] |}.
Proof. reflexivity. Qed.

(** ** The model cache *)

Ltac run_monad :=
  unfold load_model, MODEL_PATH_exists, METADATA_PATH_exists, joblib_load,
    json_load, exists_, try_except, bind, ret, raise, read, write, emit, lift,
    result, final, trace, present in *;
  cbn in *.

(** [load_model] with a handle in the cache: the model file is not looked at;
    the metadata document is looked for only while none is cached. *)
Lemma load_model_cached (e : env) (g : globals) (m : Model.t) :
  _model g = Some m ->
  load_model e g =
    if is_None (_metadata g)
    then match metadata_file e with
         | Inaccessible ex => (inl ex, g, [ExistsMetadata])
         | Stat None => (inr (Some m, _metadata g), g, [ExistsMetadata])
         | Stat (Some (inl ex)) => (inl ex, g, [ExistsMetadata; JsonLoad])
         | Stat (Some (inr md)) =>
             (inr (Some m, md), {| _model := Some m; _metadata := md |},
              [ExistsMetadata; JsonLoad])
         end
    else (inr (Some m, _metadata g), g, []).
Proof.
  destruct g as [mo md0]; cbn; intros ->.
  destruct e as [mp mdp mf mdf]; run_monad.
  destruct (is_None md0); [ | reflexivity ].
  destruct mdf as [ex | [[ex | md] | ]]; reflexivity.
Qed.

(** [load_model] with an empty cache, when there is no model file or when
    [joblib.load] raises: the exception leaves the globals as they were. *)
Lemma load_model_unloaded_fails (e : env) (g : globals) :
  _model g = None ->
  (model_file e = None ->
   load_model e g =
     (inl (FileNotFoundError ("Model not found at " ++ MODEL_PATH e)), g, [ExistsModel]))
  /\ (forall ex, model_file e = Some (inl ex) ->
      load_model e g = (inl ex, g, [ExistsModel; JoblibLoad])).
Proof.
  destruct g as [mo md0]; cbn; intros ->.
  destruct e as [mp mdp mf mdf]; cbn.
  split; [ intros -> | intros ex -> ]; reflexivity.
Qed.

(** [load_model] with an empty cache, when the model path cannot be tested:
    the exception of the test leaves the globals as they were. *)
Lemma load_model_unloaded_inaccessible (e : env) (g : globals) :
  _model g = None ->
  forall ex, model_file e = Inaccessible ex ->
  load_model e g = (inl ex, g, [ExistsModel]).
Proof.
  destruct g as [mo md0]; cbn; intros ->.
  destruct e as [mp mdp mf mdf]; cbn.
  intros ex ->. reflexivity.
Qed.

(** [load_model] with an empty cache and a model file that unpickles: the
    object is stored, and the call goes on as a call with that object cached
    (or with none cached still, if the file held Python's [None]). *)
Lemma load_model_unloaded_loads (e : env) (g : globals) (o : option Model.t) :
  _model g = None ->
  model_file e = Some (inr o) ->
  let g1 := {| _model := o; _metadata := _metadata g |} in
  load_model e g =
    if is_None (_metadata g)
    then match metadata_file e with
         | Inaccessible ex => (inl ex, g1, [ExistsModel; JoblibLoad; ExistsMetadata])
         | Stat None =>
             (inr (o, _metadata g), g1, [ExistsModel; JoblibLoad; ExistsMetadata])
         | Stat (Some (inl ex)) =>
             (inl ex, g1, [ExistsModel; JoblibLoad; ExistsMetadata; JsonLoad])
         | Stat (Some (inr md)) =>
             (inr (o, md), {| _model := o; _metadata := md |},
              [ExistsModel; JoblibLoad; ExistsMetadata; JsonLoad])
         end
    else (inr (o, _metadata g), g1, [ExistsModel; JoblibLoad]).
Proof.
  destruct g as [mo md0]; cbn; intros ->.
  destruct e as [mp mdp mf mdf]; cbn; intros ->; run_monad.
  destruct (is_None md0); [ | reflexivity ].
  destruct mdf as [ex | [[ex | md] | ]]; reflexivity.
Qed.

(** What [load_model] returns is what it leaves in the globals. *)
Lemma load_model_returns_globals (e : env) (g g1 : globals)
    (o : option Model.t) (md : value) (tr : list io_event) :
  load_model e g = (inr (o, md), g1, tr) ->
  g1 = {| _model := o; _metadata := md |}.
Proof.
  destruct (_model g) as [m | ] eqn:Hm.
  - rewrite (load_model_cached e g m Hm).
    destruct g as [mo md0]; cbn in *.
    destruct (is_None md0); [ destruct (metadata_file e) as [ex | [[ex | md'] | ]] | ];
      intros H; inversion H; subst; reflexivity.
  - destruct (model_file e) as [ex | [[ex | o'] | ]] eqn:Hf.
    + rewrite (load_model_unloaded_inaccessible e g Hm ex Hf); discriminate.
    + rewrite (proj2 (load_model_unloaded_fails e g Hm) ex Hf); discriminate.
    + rewrite (load_model_unloaded_loads e g o' Hm Hf).
      destruct g as [mo md0]; cbn in *.
      destruct (is_None md0); [ destruct (metadata_file e) as [ex | [[ex | md'] | ]] | ];
        intros H; inversion H; subst; reflexivity.
    + rewrite (proj1 (load_model_unloaded_fails e g Hm) Hf); discriminate.
Qed.

(** A call deserializes the model at most once, and never when a handle is
    cached. *)
Lemma load_model_joblib_once (e : env) (g : globals) :
  count JoblibLoad (trace (load_model e g)) <= 1.
Proof.
  destruct (_model g) as [m | ] eqn:Hm.
  - rewrite (load_model_cached e g m Hm).
    destruct (is_None (_metadata g)); [ destruct (metadata_file e) as [ex | [[ex | md'] | ]] | ];
      cbn; lia.
  - destruct (model_file e) as [ex | [[ex | o'] | ]] eqn:Hf.
    + rewrite (load_model_unloaded_inaccessible e g Hm ex Hf); cbn; lia.
    + rewrite (proj2 (load_model_unloaded_fails e g Hm) ex Hf); cbn; lia.
    + rewrite (load_model_unloaded_loads e g o' Hm Hf).
      destruct (is_None (_metadata g)); [ destruct (metadata_file e) as [ex | [[ex | md'] | ]] | ];
        cbn; lia.
    + rewrite (proj1 (load_model_unloaded_fails e g Hm) Hf); cbn; lia.
Qed.

(** Once a handle is cached it stays, and no later call looks at the model
    file. *)
Lemma load_model_cached_frame (e : env) (g : globals) (m : Model.t) :
  _model g = Some m ->
  _model (final (load_model e g)) = Some m
  /\ count ExistsModel (trace (load_model e g)) = 0
  /\ count JoblibLoad (trace (load_model e g)) = 0.
Proof.
  intros Hm. rewrite (load_model_cached e g m Hm).
  destruct (is_None (_metadata g)); [ destruct (metadata_file e) as [ex | [[ex | md'] | ]] | ];
    cbn; auto.
Qed.

(** With a handle cached, a call that returns returns that handle. *)
Lemma load_model_cached_result (e : env) (g : globals) (m : Model.t)
    (r : option Model.t * value) :
  _model g = Some m ->
  result (load_model e g) = inr r ->
  fst r = Some m.
Proof.
  intros Hm. rewrite (load_model_cached e g m Hm).
  destruct (is_None (_metadata g)); [ destruct (metadata_file e) as [ex | [[ex | md'] | ]] | ];
    cbn; intros H; inversion H; reflexivity.
Qed.

(** In the environment of a call that returned a handle, the next call
    returns the same pair and changes nothing. *)
Lemma load_model_again (e : env) (g g1 : globals) (m : Model.t) (md : value)
    (tr1 : list io_event) :
  load_model e g = (inr (Some m, md), g1, tr1) ->
  result (load_model e g1) = inr (Some m, md) /\ final (load_model e g1) = g1.
Proof.
  intros H1.
  pose proof (load_model_returns_globals _ _ _ _ _ _ H1) as Hg1.
  assert (Hm : _model g1 = Some m) by (subst g1; reflexivity).
  rewrite (load_model_cached e g1 m Hm).
  assert (Hmd : is_None md = true ->
                metadata_file e = None \/ metadata_file e = Some (inr VNone)).
  { intros Hn.
    destruct (_model g) as [m0 | ] eqn:Hg.
    - rewrite (load_model_cached e g m0 Hg) in H1.
      destruct (is_None (_metadata g)) eqn:Hn0;
        [ destruct (metadata_file e) as [ex | [[ex | md'] | ]] | ];
        inversion H1; subst; auto; try congruence.
      destruct md; try discriminate; auto.
    - destruct (model_file e) as [ex | [[ex | o'] | ]] eqn:Hf.
      + rewrite (load_model_unloaded_inaccessible e g Hg ex Hf) in H1; discriminate.
      + rewrite (proj2 (load_model_unloaded_fails e g Hg) ex Hf) in H1; discriminate.
      + rewrite (load_model_unloaded_loads e g o' Hg Hf) in H1.
        destruct (is_None (_metadata g)) eqn:Hn0;
          [ destruct (metadata_file e) as [ex | [[ex | md'] | ]] | ];
          inversion H1; subst; auto; try congruence.
        destruct md; try discriminate; auto.
      + rewrite (proj1 (load_model_unloaded_fails e g Hg) Hf) in H1; discriminate. }
  subst g1. cbn [_metadata].
  destruct (is_None md) eqn:Hn; [ | split; reflexivity ].
  destruct md; try discriminate.
  destruct (Hmd eq_refl) as [-> | ->]; split; reflexivity.
Qed.

Lemma load_model_calls_cached (es : list env) (g : globals) (m : Model.t) :
  _model g = Some m ->
  Forall (fun run => _model (final run) = Some m
                     /\ count ExistsModel (trace run) = 0
                     /\ count JoblibLoad (trace run) = 0)
         (load_model_calls es g).
Proof.
  revert g. induction es as [ | e es IH]; intros g Hm; cbn.
  - constructor.
  - pose proof (load_model_cached_frame e g m Hm) as Hf.
    constructor; [ exact Hf | apply IH; exact (proj1 Hf) ].
Qed.

Lemma count_app (ev : io_event) (tr1 tr2 : list io_event) :
  count ev (tr1 ++ tr2) = count ev tr1 + count ev tr2.
Proof.
  unfold count. rewrite filter_app, length_app. reflexivity.
Qed.

Lemma load_model_calls_failing (es : list env) (g : globals) :
  _model g = None ->
  Forall model_load_fails es ->
  Forall (fun run => (exists ex, result run = inl ex)
                     /\ final run = g
                     /\ exists tr, trace run = ExistsModel :: tr)
         (load_model_calls es g).
Proof.
  intros Hm Hes. induction Hes as [ | e es He _ IH]; cbn [load_model_calls].
  - constructor.
  - destruct (load_model_unloaded_fails e g Hm) as [Habsent Hraises].
    assert (Hrun : (exists ex, result (load_model e g) = inl ex)
                   /\ final (load_model e g) = g
                   /\ exists tr, trace (load_model e g) = ExistsModel :: tr).
    { destruct He as [Hf | [ex Hf]].
      - rewrite (Habsent Hf). cbn. eauto.
      - rewrite (Hraises ex Hf). cbn. eauto. }
    constructor; [ exact Hrun | ].
    destruct Hrun as (_ & -> & _). exact IH.
Qed.

Lemma load_model_calls_metadata_failing (es : list env) (g : globals) (m : Model.t) :
  _model g = Some m ->
  _metadata g = VNone ->
  Forall metadata_parse_fails es ->
  Forall (fun run => (exists ex, result run = inl ex)
                     /\ final run = g
                     /\ trace run = [ExistsMetadata; JsonLoad])
         (load_model_calls es g).
Proof.
  intros Hm Hmd Hes. induction Hes as [ | e es [ex He] _ IH]; cbn [load_model_calls].
  - constructor.
  - assert (Hrun : load_model e g = (inl ex, g, [ExistsMetadata; JsonLoad])).
    { rewrite (load_model_cached e g m Hm), Hmd, He. reflexivity. }
    rewrite Hrun. constructor; cbn; eauto.
Qed.

(** C4: a call to [load_model] that follows one which returned a handle does
    no deserialization: over the two calls [joblib.load] runs at most once,
    the second call neither tests nor reads the model file, the cached handle
    stays, and whatever the second call returns carries that same handle.
    In an unchanged environment the second call returns exactly what the
    first returned and leaves the globals as they are. *)
Theorem C4_cached_handle_is_returned_without_reload
    (e1 e2 : env) (g g1 : globals) (m : Model.t) (md : value) (tr1 : list io_event) :
  load_model e1 g = (inr (Some m, md), g1, tr1) ->
  let second := load_model e2 g1 in
  count JoblibLoad (tr1 ++ trace second) <= 1
  /\ count JoblibLoad (trace second) = 0
  /\ count ExistsModel (trace second) = 0
  /\ _model (final second) = Some m
  /\ (forall r, result second = inr r -> fst r = Some m)
  /\ (e2 = e1 -> result second = inr (Some m, md) /\ final second = g1).
Proof.
  intros H1 second.
  pose proof (load_model_returns_globals _ _ _ _ _ _ H1) as Hg1.
  assert (Hm : _model g1 = Some m) by (subst g1; reflexivity).
  destruct (load_model_cached_frame e2 g1 m Hm) as (Hkeep & Hex & Hjl).
  split; [ | split; [ exact Hjl | split; [ exact Hex | split; [ exact Hkeep | split ] ] ] ].
  - rewrite count_app. fold second in Hjl. rewrite Hjl.
    pose proof (load_model_joblib_once e1 g) as Hone.
    rewrite H1 in Hone. change (count JoblibLoad tr1 <= 1) in Hone. lia.
  - intros r. apply load_model_cached_result. exact Hm.
  - intros ->. exact (load_model_again e1 g g1 m md tr1 H1).
Qed.

Lemma C4_witness :
  load_model (sample_env (Some (inr (Some stub_model))) (Some (inr rf_v2))) unloaded
  = (inr (Some stub_model, rf_v2),
     {| _model := Some stub_model; _metadata := rf_v2 |},
     [ExistsModel; JoblibLoad; ExistsMetadata; JsonLoad])
  /\ count JoblibLoad
       ([ExistsModel; JoblibLoad; ExistsMetadata; JsonLoad]
        ++ trace (load_model (sample_env None None)
                    {| _model := Some stub_model; _metadata := rf_v2 |})) <= 1
  /\ _model (final (load_model (sample_env None None)
                      {| _model := Some stub_model; _metadata := rf_v2 |}))
     = Some stub_model.
Proof.
  pose proof (C4_cached_handle_is_returned_without_reload
                (sample_env (Some (inr (Some stub_model))) (Some (inr rf_v2)))
                (sample_env None None) unloaded _ stub_model rf_v2 _ eq_refl) as H.
  cbv zeta in H. destruct H as (Hcount & _ & _ & Hkeep & _).
  split; [ reflexivity | split; [ exact Hcount | exact Hkeep ] ].
Defined.

(** C5: a call to [load_model] that fails because the model file is absent
    or because [joblib.load] raises leaves the globals exactly as they were,
    so still without a handle: the exception (the "not found" error, or the
    deserialization error itself) is not remembered.  The next call starts
    over with the existence test, deserializes again whenever a file is
    there and caches the handle if that succeeds; and however many such
    failing calls follow one another, each of them retries and none changes
    the globals. *)
Theorem C5_failed_load_leaves_cache_unloaded (e : env) (g : globals) :
  _model g = None ->
  model_load_fails e ->
  let failed := load_model e g in
  ((model_file e = None ->
    result failed = inl (FileNotFoundError ("Model not found at " ++ MODEL_PATH e)))
   /\ (forall ex, model_file e = Some (inl ex) -> result failed = inl ex))
  /\ final failed = g
  /\ _model (final failed) = None
  /\ (forall e2, exists tr, trace (load_model e2 (final failed)) = ExistsModel :: tr)
  /\ (forall e2, present (model_file e2) = true ->
        exists tr, trace (load_model e2 (final failed)) = ExistsModel :: JoblibLoad :: tr)
  /\ (forall e2 m, model_file e2 = Some (inr (Some m)) ->
        _model (final (load_model e2 (final failed))) = Some m)
  /\ (forall es, Forall model_load_fails es ->
        Forall (fun run => (exists ex, result run = inl ex)
                           /\ final run = g
                           /\ exists tr, trace run = ExistsModel :: tr)
               (load_model_calls es (final failed))).
Proof.
  intros Hm He failed.
  destruct (load_model_unloaded_fails e g Hm) as [Habsent Hraises].
  assert (Hfinal : final failed = g).
  { subst failed. destruct He as [Hf | [ex Hf]].
    - rewrite (Habsent Hf). reflexivity.
    - rewrite (Hraises ex Hf). reflexivity. }
  split; [ split | ].
  - intros Hf. subst failed. rewrite (Habsent Hf). reflexivity.
  - intros ex Hf. subst failed. rewrite (Hraises ex Hf). reflexivity.
  - rewrite Hfinal. split; [ reflexivity | split; [ exact Hm | ] ].
    split; [ | split; [ | split ] ].
    + intros e2. destruct (model_file e2) as [ex | [[ex | o] | ]] eqn:Hf2.
      * rewrite (load_model_unloaded_inaccessible e2 g Hm ex Hf2). cbn. eauto.
      * rewrite (proj2 (load_model_unloaded_fails e2 g Hm) ex Hf2). cbn. eauto.
      * rewrite (load_model_unloaded_loads e2 g o Hm Hf2).
        destruct (is_None (_metadata g));
          [ destruct (metadata_file e2) as [ex | [[ex | md] | ]] | ]; cbn; eauto.
      * rewrite (proj1 (load_model_unloaded_fails e2 g Hm) Hf2). cbn. eauto.
    + intros e2 Hp. destruct (model_file e2) as [ex | [[ex | o] | ]] eqn:Hf2;
        [ discriminate Hp | | | discriminate Hp ].
      * rewrite (proj2 (load_model_unloaded_fails e2 g Hm) ex Hf2). cbn. eauto.
      * rewrite (load_model_unloaded_loads e2 g o Hm Hf2).
        destruct (is_None (_metadata g));
          [ destruct (metadata_file e2) as [ex | [[ex | md] | ]] | ]; cbn; eauto.
    + intros e2 m Hf2.
      rewrite (load_model_unloaded_loads e2 g (Some m) Hm Hf2).
      destruct (is_None (_metadata g));
        [ destruct (metadata_file e2) as [ex | [[ex | md] | ]] | ]; reflexivity.
    + intros es Hes. apply load_model_calls_failing; assumption.
Qed.

Lemma C5_witness :
  final (load_model (sample_env (Some (inl unpickling_error)) (Some (inr rf_v2))) unloaded)
  = unloaded
  /\ result (load_model (sample_env (Some (inl unpickling_error)) (Some (inr rf_v2))) unloaded)
     = inl unpickling_error
  /\ _model (final (load_model (sample_env (Some (inr (Some stub_model))) None)
                      (final (load_model
                                (sample_env (Some (inl unpickling_error)) (Some (inr rf_v2)))
                                unloaded))))
     = Some stub_model.
Proof.
  pose proof (C5_failed_load_leaves_cache_unloaded
                (sample_env (Some (inl unpickling_error)) (Some (inr rf_v2))) unloaded
                eq_refl (or_intror (ex_intro _ unpickling_error eq_refl))) as H.
  cbv zeta in H. destruct H as ((_ & Hraises) & Hfinal & _ & _ & _ & Hretry & _).
  split; [ exact Hfinal | split ].
  - exact (Hraises unpickling_error eq_refl).
  - exact (Hretry (sample_env (Some (inr (Some stub_model))) None) stub_model eq_refl).
Defined.

(** C10: when the model file deserializes to a handle but the metadata
    document that is there does not parse, [load_model] raises the parse
    error with the handle already stored in [_model].  From then on no call
    tests or reads the model file again, whatever the environment; a call
    that finds a metadata document parses it anew; and while the document
    keeps failing to parse, every call does just that one parse, raises, and
    leaves the globals as they are. *)
Theorem C10_metadata_failure_keeps_model_cached
    (e : env) (g : globals) (m : Model.t) (ex : exn) :
  _model g = None ->
  _metadata g = VNone ->
  model_file e = Some (inr (Some m)) ->
  metadata_file e = Some (inl ex) ->
  let failed := load_model e g in
  result failed = inl ex
  /\ final failed = {| _model := Some m; _metadata := VNone |}
  /\ trace failed = [ExistsModel; JoblibLoad; ExistsMetadata; JsonLoad]
  /\ (forall es,
        Forall (fun run => _model (final run) = Some m
                           /\ count ExistsModel (trace run) = 0
                           /\ count JoblibLoad (trace run) = 0)
               (load_model_calls es (final failed)))
  /\ (forall e2, present (metadata_file e2) = true ->
        trace (load_model e2 (final failed)) = [ExistsMetadata; JsonLoad])
  /\ (forall es, Forall metadata_parse_fails es ->
        Forall (fun run => (exists ex', result run = inl ex')
                           /\ final run = final failed
                           /\ trace run = [ExistsMetadata; JsonLoad])
               (load_model_calls es (final failed))).
Proof.
  intros Hm Hmd Hf Hmf failed.
  assert (Hrun : failed = (inl ex, {| _model := Some m; _metadata := VNone |},
                           [ExistsModel; JoblibLoad; ExistsMetadata; JsonLoad])).
  { subst failed. rewrite (load_model_unloaded_loads e g (Some m) Hm Hf), Hmd, Hmf.
    reflexivity. }
  rewrite Hrun. change (final (inl ex, ?g', ?tr)) with g'.
  split; [ reflexivity | split; [ reflexivity | split; [ reflexivity | ] ] ].
  split; [ | split ].
  - intros es. apply load_model_calls_cached. reflexivity.
  - intros e2 Hp.
    rewrite (load_model_cached e2 {| _model := Some m; _metadata := VNone |} m eq_refl).
    cbn [_metadata is_None].
    destruct (metadata_file e2) as [ex2 | [[ex2 | md2] | ]];
      [ discriminate Hp | reflexivity | reflexivity | discriminate Hp ].
  - intros es Hes.
    apply (load_model_calls_metadata_failing es
             {| _model := Some m; _metadata := VNone |} m); auto.
Qed.

Lemma C10_witness :
  load_model (sample_env (Some (inr (Some stub_model))) (Some (inl json_decode_error))) unloaded
  = (inl json_decode_error, loaded_stub,
     [ExistsModel; JoblibLoad; ExistsMetadata; JsonLoad])
  /\ trace (load_model (sample_env None (Some (inl json_decode_error))) loaded_stub)
     = [ExistsMetadata; JsonLoad].
Proof.
  pose proof (C10_metadata_failure_keeps_model_cached
                (sample_env (Some (inr (Some stub_model))) (Some (inl json_decode_error)))
                unloaded stub_model json_decode_error
                eq_refl eq_refl eq_refl eq_refl) as H.
  cbv zeta in H. destruct H as (_ & _ & _ & _ & Hretry & _).
  split; [ reflexivity | ].
  exact (Hretry (sample_env None (Some (inl json_decode_error))) eq_refl).
Defined.

(** ** The handlers *)

(** [predict], stage by stage. *)
Lemma predict_stages (e : env) (payload : PredictRequest) (g : globals) :
  predict e payload g =
    match load_model e g with
    | (inl (FileNotFoundError msg), g1, tr) => (inl (HTTPException 503 msg), g1, tr)
    | (inl ex, g1, tr) =>
        (inl (HTTPException 500 ("Error loading model: " ++ str ex)), g1, tr)
    | (inr (model, metadata), g1, tr) =>
        match movies payload with
        | [] => (inl (HTTPException 400 "'movies' list cannot be empty"), g1, tr)
        | _ :: _ =>
            match inference model metadata payload with
            | inl ex => (inl (HTTPException 500 ("Inference error: " ++ str ex)), g1, tr)
            | inr response => (inr response, g1, tr)
            end
        end
    end.
Proof.
  unfold predict, bind, try_except, raise, lift.
  destruct (load_model e g) as [[[ex | [model metadata]] g1] tr].
  - destruct ex; cbn; rewrite app_nil_r; reflexivity.
  - cbn [fst snd]. destruct (movies payload) as [ | movie rest].
    + rewrite app_nil_r. reflexivity.
    + destruct (inference model metadata payload) as [ex | response];
        rewrite !app_nil_r; reflexivity.
Qed.

(** [model_info], stage by stage. *)
Lemma model_info_stages (e : env) (g : globals) :
  model_info e g =
    match load_model e g with
    | (inl ex, g1, tr) => (inl (HTTPException 500 (str ex)), g1, tr)
    | (inr (_, metadata), g1, tr) =>
        (inr (if truthy metadata then metadata else no_metadata_message), g1, tr)
    end.
Proof.
  unfold model_info, bind, try_except, raise, ret.
  destruct (load_model e g) as [[[ex | [model metadata]] g1] tr].
  - rewrite app_nil_r. reflexivity.
  - cbn [snd]. destruct (truthy metadata); rewrite app_nil_r; reflexivity.
Qed.

(** C9, as the code has it: in every state of the cache and whatever lies
    behind the two paths, [health] only tests the two paths for existence:
    it deserializes and parses nothing, leaves the globals as they are and
    does not raise.  When both tests return, it answers with the four
    fields, with status "healthy" when the model file is there and
    "model_missing" when it is not.  When a test raises, the handler of
    [health] answers with status "error" and the text of the exception
    instead, the metadata path being left untested if the test of the model
    path is the one that raised. *)
Theorem C9_health_reports_files_or_error_without_loading (e : env) (g : globals) :
  final (health e g) = g
  /\ count JoblibLoad (trace (health e g)) = 0
  /\ count JsonLoad (trace (health e g)) = 0
  /\ (exists report, result (health e g) = inr report)
  /\ (forall model_content metadata_content,
        model_file e = Stat model_content ->
        metadata_file e = Stat metadata_content ->
        result (health e g)
        = inr (VDict
                 [ ("status",
                    VStr (if present (model_file e) then "healthy" else "model_missing"));
                   ("model_path", VStr (MODEL_PATH e));
                   ("model_exists", VBool (present (model_file e)));
                   ("metadata_exists", VBool (present (metadata_file e))) ])
        /\ trace (health e g) = [ExistsModel; ExistsMetadata])
  /\ (forall ex,
        model_file e = Inaccessible ex ->
        result (health e g)
        = inr (VDict [ ("status", VStr "error"); ("detail", VStr (str ex)) ])
        /\ trace (health e g) = [ExistsModel])
  /\ (forall model_content ex,
        model_file e = Stat model_content ->
        metadata_file e = Inaccessible ex ->
        result (health e g)
        = inr (VDict [ ("status", VStr "error"); ("detail", VStr (str ex)) ])
        /\ trace (health e g) = [ExistsModel; ExistsMetadata]).
Proof.
  unfold health, MODEL_PATH_exists, METADATA_PATH_exists, exists_, try_except, bind, emit,
    ret, raise, result, final, trace.
  destruct e as [mp mdp mf mdf]; cbn [model_file metadata_file MODEL_PATH].
  destruct mf as [ex | [r | ]]; destruct mdf as [ex' | [r' | ]]; cbn;
    (split; [ reflexivity | ]); (split; [ reflexivity | ]); (split; [ reflexivity | ]);
    (split; [ eexists; reflexivity | ]);
    (split; [ | split ]); intros; try discriminate;
    repeat match goal with
           | H : Stat _ = Stat _ |- _ => inversion H; clear H; subst
           | H : Inaccessible _ = Inaccessible _ |- _ => inversion H; clear H; subst
           end;
    split; reflexivity.
Qed.

(** A model path that cannot be tested: [health] answers with status
    "error", which is neither "healthy" nor "model_missing", and with none
    of the three other fields. *)
Lemma C9_counterexample :
  result (health locked_env unloaded)
  = inr (VDict [ ("status", VStr "error");
                 ("detail", VStr "[Errno 13] Permission denied: 'models/best_model.pkl'") ])
  /\ VStr "error" <> VStr "healthy"
  /\ VStr "error" <> VStr "model_missing"
  /\ field (VDict [ ("status", VStr "error");
                    ("detail", VStr "[Errno 13] Permission denied: 'models/best_model.pkl'") ])
           "model_exists"
     = None.
Proof.
  repeat split; discriminate.
Qed.

(** C1, as the code has it: [predict] calls [load_model] before it looks at
    the movies list.  On an empty list its effect on the globals and on the
    file system is exactly that of [load_model]; it answers 400 with the
    "cannot be empty" detail when that load returns, and with the load's own
    503 or 500 when it raises. *)
Theorem C1_empty_list_is_rejected_after_the_load (e : env) (g : globals) :
  final (predict e empty_request g) = final (load_model e g)
  /\ trace (predict e empty_request g) = trace (load_model e g)
  /\ result (predict e empty_request g)
     = match result (load_model e g) with
       | inr _ => inl (HTTPException 400 "'movies' list cannot be empty")
       | inl (FileNotFoundError msg) => inl (HTTPException 503 msg)
       | inl ex => inl (HTTPException 500 ("Error loading model: " ++ str ex))
       end.
Proof.
  rewrite predict_stages.
  destruct (load_model e g) as [[[ex | [model metadata]] g1] tr].
  - destruct ex; repeat split.
  - repeat split.
Qed.

(** An empty list is not always answered with 400, and not before the
    cache is touched.  With no model file it is answered with 503; with a
    model file it is answered with 400 only after the model was deserialized
    and cached. *)
Lemma C1_counterexample :
  result (predict (sample_env None None) empty_request unloaded)
  = inl (HTTPException 503 "Model not found at models/best_model.pkl")
  /\ result (predict (sample_env (Some (inr (Some stub_model))) None) empty_request unloaded)
     = inl (HTTPException 400 "'movies' list cannot be empty")
  /\ trace (predict (sample_env (Some (inr (Some stub_model))) None) empty_request unloaded)
     = [ExistsModel; JoblibLoad; ExistsMetadata]
  /\ final (predict (sample_env (Some (inr (Some stub_model))) None) empty_request unloaded)
     = loaded_stub
  /\ loaded_stub <> unloaded.
Proof.
  repeat split. discriminate.
Qed.

(** C7, as the code has it: a failure of [predict] is always an
    [HTTPException], and its status follows the stage that failed, the load
    coming first: 503 when [load_model] raised [FileNotFoundError], as it
    does whenever no handle is cached and the model file is absent, the
    movies list being empty or not; 500 when [load_model] raised anything
    else; 400 when the load returned and the list is empty; 500 when the load
    returned, the list is not empty and the inference block raised. *)
Theorem C7_failure_status_follows_the_stage
    (e : env) (payload : PredictRequest) (g : globals) (failure : exn) :
  result (predict e payload g) = inl failure ->
  match result (load_model e g) with
  | inl (FileNotFoundError msg) => failure = HTTPException 503 msg
  | inl ex => failure = HTTPException 500 ("Error loading model: " ++ str ex)
  | inr (model, metadata) =>
      match movies payload with
      | [] => failure = HTTPException 400 "'movies' list cannot be empty"
      | _ :: _ =>
          exists ex, inference model metadata payload = inl ex
                     /\ failure = HTTPException 500 ("Inference error: " ++ str ex)
      end
  end
  /\ (exists status detail,
        failure = HTTPException status detail
        /\ (status = 400 \/ status = 503 \/ status = 500))
  /\ (_model g = None -> model_file e = None ->
      failure = HTTPException 503 ("Model not found at " ++ MODEL_PATH e))
  /\ (forall ex, _model g = None -> model_file e = Some (inl ex) ->
      (forall msg, ex <> FileNotFoundError msg) ->
      failure = HTTPException 500 ("Error loading model: " ++ str ex)).
Proof.
  intros Hfail.
  assert (Hstage :
    match result (load_model e g) with
    | inl (FileNotFoundError msg) => failure = HTTPException 503 msg
    | inl ex => failure = HTTPException 500 ("Error loading model: " ++ str ex)
    | inr (model, metadata) =>
        match movies payload with
        | [] => failure = HTTPException 400 "'movies' list cannot be empty"
        | _ :: _ =>
            exists ex, inference model metadata payload = inl ex
                       /\ failure = HTTPException 500 ("Inference error: " ++ str ex)
        end
    end).
  { rewrite predict_stages in Hfail.
    destruct (load_model e g) as [[[ex | [model metadata]] g1] tr];
      unfold result in *; cbn [fst snd] in *.
    - destruct ex; inversion Hfail; reflexivity.
    - destruct (movies payload) as [ | movie rest].
      + inversion Hfail; reflexivity.
      + destruct (inference model metadata payload) as [ex | response].
        * inversion Hfail. exists ex. split; reflexivity.
        * discriminate Hfail. }
  split; [ exact Hstage | ].
  split; [ | split ].
  - destruct (result (load_model e g)) as [ex | [model metadata]].
    + destruct ex; subst failure; eauto 7.
    + destruct (movies payload) as [ | movie rest].
      * subst failure; eauto 7.
      * destruct Hstage as (ex & _ & ->); eauto 7.
  - intros Hm Hf.
    rewrite (proj1 (load_model_unloaded_fails e g Hm) Hf) in Hstage. exact Hstage.
  - intros ex Hm Hf Hex.
    rewrite (proj2 (load_model_unloaded_fails e g Hm) ex Hf) in Hstage.
    unfold result in Hstage. cbn [fst] in Hstage.
    destruct ex; try exact Hstage. exfalso. exact (Hex msg eq_refl).
Qed.

Lemma C7_witness :
  result (predict (sample_env (Some (inl unpickling_error)) None)
            {| movies := [movie_2005] |} unloaded)
  = inl (HTTPException 500 "Error loading model: invalid load key, 'x'.")
  /\ exists status detail,
       HTTPException 500 "Error loading model: invalid load key, 'x'."
       = HTTPException status detail
       /\ (status = 400 \/ status = 503 \/ status = 500).
Proof.
  split; [ reflexivity | ].
  exact (proj1 (proj2 (C7_failure_status_follows_the_stage
                         (sample_env (Some (inl unpickling_error)) None)
                         {| movies := [movie_2005] |} unloaded _ eq_refl))).
Defined.

(** An empty list sent while the model file is absent is answered with 503,
    and with no 400 whatever the detail: the status is not a function of the
    emptiness of the list alone. *)
Lemma C7_counterexample :
  movies empty_request = []
  /\ present (model_file (sample_env None None)) = false
  /\ result (predict (sample_env None None) empty_request unloaded)
     = inl (HTTPException 503 "Model not found at models/best_model.pkl")
  /\ (forall detail,
        result (predict (sample_env None None) empty_request unloaded)
        <> inl (HTTPException 400 detail)).
Proof.
  repeat split. intros detail. discriminate.
Qed.

(** ** The inference block *)

Lemma row_max_ge_first (x : Q) (xs : list Q) : (x <= row_max x xs)%Q.
Proof.
  revert x. induction xs as [ | y ys IH]; intros x; cbn.
  - apply Qle_refl.
  - destruct (Qle_bool x y) eqn:Hxy.
    + apply Qle_trans with y; [ apply Qle_bool_iff; exact Hxy | apply IH ].
    + apply IH.
Qed.

Lemma row_max_is_max (x : Q) (xs : list Q) : is_max (row_max x xs) (x :: xs).
Proof.
  revert x. induction xs as [ | y ys IH]; intros x.
  - split; [ left; reflexivity | repeat constructor; apply Qle_refl ].
  - cbn [row_max]. destruct (Qle_bool x y) eqn:Hxy.
    + destruct (IH y) as [Hin Hall]. split.
      * destruct Hin as [<- | Hin]; [ right; left; reflexivity | right; right; exact Hin ].
      * constructor; [ | exact Hall ].
        apply Qle_trans with y; [ apply Qle_bool_iff; exact Hxy | apply row_max_ge_first ].
    + destruct (IH x) as [Hin Hall]. split.
      * destruct Hin as [<- | Hin]; [ left; reflexivity | right; right; exact Hin ].
      * inversion Hall as [ | ? ? Hx Hys]; subst.
        constructor; [ exact Hx | constructor; [ | exact Hys ] ].
        apply Qle_trans with x; [ | exact Hx ].
        apply Qlt_le_weak, Qnot_le_lt. intros Hle.
        apply Qle_bool_iff in Hle. congruence.
Qed.

(** [max_axis1] keeps one entry per row, the largest of that row. *)
Lemma max_axis1_rows (proba : list (list Q)) (probs : list Q) :
  max_axis1 proba = inr probs ->
  Forall2 is_max probs proba.
Proof.
  revert probs. induction proba as [ | row rest IH]; intros probs; cbn.
  - intros H; inversion H; constructor.
  - destruct row as [ | x xs]; [ discriminate | ].
    destruct (max_axis1 rest) as [ex | ms]; cbn; [ discriminate | ].
    intros H; inversion H; subst.
    constructor; [ apply row_max_is_max | apply IH; reflexivity ].
Qed.

(** What the loop appends: one result per prediction, in order, each with
    the label of its prediction and the confidence found at its index. *)
Lemma build_results_appends (predictions : list value) (probs : option (list Q))
    (i : nat) (acc results : list PredictionResult) :
  build_results predictions probs i acc = inr results ->
  exists fresh,
    results = acc ++ fresh
    /\ map (fun r => VStr (rating_category r)) fresh = predictions
    /\ forall k r, nth_error fresh k = Some r ->
                   confidence_at probs (i + k) = inr (confidence r).
Proof.
  revert i acc. induction predictions as [ | pred rest IH]; intros i acc; cbn.
  - intros H; inversion H; subst. exists []. rewrite app_nil_r.
    repeat split. intros [ | k] r; discriminate.
  - destruct (confidence_at probs i) as [ex | conf] eqn:Hconf; cbn; [ discriminate | ].
    destruct pred; cbn; try discriminate.
    intros H. destruct (IH _ _ H) as (fresh & -> & Hlabels & Hconfs).
    exists ({| rating_category := s; confidence := conf |} :: fresh).
    rewrite <- app_assoc. cbn. split; [ reflexivity | split ].
    + rewrite Hlabels. reflexivity.
    + intros [ | k] r; cbn.
      * intros Hr; inversion Hr; subst. rewrite Nat.add_0_r. exact Hconf.
      * intros Hr. rewrite <- plus_n_Sm. exact (Hconfs k r Hr).
Qed.

(** A response comes out of the inference block only if each of its steps
    returned. *)
Lemma inference_returns (model : option Model.t) (metadata : value)
    (payload : PredictRequest) (response : PredictResponse) :
  inference model metadata payload = inr response ->
  exists m labels probs,
    model = Some m
    /\ Model.predict m (pd_DataFrame (map model_dump (movies payload))) = inr labels
    /\ call_probs model (pd_DataFrame (map model_dump (movies payload))) = inr probs
    /\ build_results labels probs 0 [] = inr (predictions response)
    /\ (if truthy metadata then get metadata "model_name" (VStr "unknown")
        else inr (VStr "unknown")) = inr (VStr (model_name response))
    /\ (if truthy metadata then get metadata "metrics" (VDict [])
        else inr (VDict [])) = inr (VDict (model_metrics response)).
Proof.
  unfold inference.
  destruct model as [m | ]; cbn [call_predict]; [ | discriminate ].
  destruct (Model.predict m _) as [ex | labels] eqn:Hlabels; cbn [and_then]; [ discriminate | ].
  destruct (call_probs (Some m) _) as [ex | probs] eqn:Hprobs; cbn [and_then]; [ discriminate | ].
  destruct (build_results labels probs 0 []) as [ex | results] eqn:Hres; cbn [and_then];
    [ discriminate | ].
  destruct (if truthy metadata then get metadata "model_name" (VStr "unknown")
            else inr (VStr "unknown")) as [ex | name] eqn:Hname; cbn [and_then];
    [ discriminate | ].
  destruct (if truthy metadata then get metadata "metrics" (VDict [])
            else inr (VDict [])) as [ex | metrics] eqn:Hmetrics; cbn [and_then];
    [ discriminate | ].
  unfold new_PredictResponse.
  destruct name; try discriminate. destruct metrics; try discriminate.
  intros H; inversion H; subst; cbn.
  exists m, labels, probs. repeat split; assumption.
Qed.

(** A response comes out of [predict] only if the load returned, the list
    was not empty and the inference block returned. *)
Lemma predict_returns (e : env) (payload : PredictRequest) (g g' : globals)
    (response : PredictResponse) (tr : list io_event) :
  predict e payload g = (inr response, g', tr) ->
  load_model e g = (inr (_model g', _metadata g'), g', tr)
  /\ movies payload <> []
  /\ inference (_model g') (_metadata g') payload = inr response.
Proof.
  rewrite predict_stages.
  destruct (load_model e g) as [[[ex | [model metadata]] g1] tr1] eqn:Hload.
  - destruct ex; discriminate.
  - pose proof (load_model_returns_globals _ _ _ _ _ _ Hload) as Hg1.
    destruct (movies payload) as [ | movie rest]; [ discriminate | ].
    destruct (inference model metadata payload) as [ex | response'] eqn:Hinf;
      [ discriminate | ].
    intros H; inversion H; subst. cbn.
    repeat split; [ discriminate | exact Hinf ].
Qed.

Lemma Forall2_nth_error_l {A B} (R : A -> B -> Prop) (l1 : list A) (l2 : list B)
    (i : nat) (a : A) :
  Forall2 R l1 l2 ->
  nth_error l1 i = Some a ->
  exists b, nth_error l2 i = Some b /\ R a b.
Proof.
  intros H. revert i. induction H as [ | x y l1 l2 Hxy _ IH]; intros [ | i]; cbn;
    try discriminate.
  - intros Ha; inversion Ha; subst. eauto.
  - apply IH.
Qed.

(** With an empty metadata cache, what a returning [load_model] leaves as
    metadata is what lies behind [METADATA_PATH]. *)
Lemma load_model_fresh_metadata (e : env) (g g1 : globals) (o : option Model.t)
    (md : value) (tr : list io_event) :
  load_model e g = (inr (o, md), g1, tr) ->
  _metadata g = VNone ->
  (metadata_file e = None -> md = VNone)
  /\ (forall doc, metadata_file e = Some (inr doc) -> md = doc).
Proof.
  intros H Hmd.
  destruct (_model g) as [m | ] eqn:Hm.
  - rewrite (load_model_cached e g m Hm), Hmd in H. cbn [is_None] in H.
    destruct (metadata_file e) as [ex | [[ex | md'] | ]]; inversion H; subst;
      split; try discriminate; try reflexivity.
    intros doc Hdoc; inversion Hdoc; reflexivity.
  - destruct (model_file e) as [ex | [[ex | o'] | ]] eqn:Hf.
    + rewrite (load_model_unloaded_inaccessible e g Hm ex Hf) in H; discriminate.
    + rewrite (proj2 (load_model_unloaded_fails e g Hm) ex Hf) in H; discriminate.
    + rewrite (load_model_unloaded_loads e g o' Hm Hf), Hmd in H. cbn [is_None] in H.
      destruct (metadata_file e) as [ex | [[ex | md'] | ]]; inversion H; subst;
        split; try discriminate; try reflexivity.
      intros doc Hdoc; inversion Hdoc; reflexivity.
    + rewrite (proj1 (load_model_unloaded_fails e g Hm) Hf) in H; discriminate.
Qed.

(** A document with a member is truthy, and [get] finds the member. *)
Lemma get_field (doc : value) (k : string) (default v : value) :
  field doc k = Some v ->
  truthy doc = true /\ get doc k default = inr v.
Proof.
  destruct doc; cbn; try discriminate.
  destruct d as [ | item d]; cbn [lookup]; [ discriminate | ].
  intros H. split; [ reflexivity | ].
  cbn [lookup] in *. rewrite H. reflexivity.
Qed.



(** C8: [model_info] forces a load, doing to the globals and to the file
    system exactly what [load_model] does.  When the load returns with a
    metadata document, a JSON object with its members, it answers with that
    document itself; when the load returns without metadata, it answers with
    the "No metadata available" message; when the load raises, it raises
    500 with the text of the exception.  With nothing cached as metadata
    before the call, the document is the one the metadata file holds, and
    there is none when there is no such file. *)
Theorem C8_model_info_returns_the_metadata_document (e : env) (g : globals) :
  final (model_info e g) = final (load_model e g)
  /\ trace (model_info e g) = trace (load_model e g)
  /\ (forall model k v d,
        result (load_model e g) = inr (model, VDict ((k, v) :: d)) ->
        result (model_info e g) = inr (VDict ((k, v) :: d)))
  /\ (forall model,
        result (load_model e g) = inr (model, VNone) ->
        result (model_info e g) = inr no_metadata_message)
  /\ (forall ex,
        result (load_model e g) = inl ex ->
        result (model_info e g) = inl (HTTPException 500 (str ex)))
  /\ (forall k v d r,
        _metadata g = VNone ->
        metadata_file e = Some (inr (VDict ((k, v) :: d))) ->
        result (load_model e g) = inr r ->
        result (model_info e g) = inr (VDict ((k, v) :: d)))
  /\ (forall r,
        _metadata g = VNone ->
        metadata_file e = None ->
        result (load_model e g) = inr r ->
        result (model_info e g) = inr no_metadata_message).
Proof.
  rewrite model_info_stages.
  destruct (load_model e g) as [[[ex | [model metadata]] g1] tr] eqn:Hload;
    unfold result, final, trace; cbn [fst snd].
  - repeat split; intros; try discriminate.
    match goal with H : inl _ = inl _ |- _ => inversion H; reflexivity end.
  - split; [ reflexivity | split; [ reflexivity | ] ].
    split; [ | split; [ | split; [ | split ] ] ].
    + intros model' k v d H. inversion H; subst. reflexivity.
    + intros model' H. inversion H; subst. reflexivity.
    + intros ex H. discriminate H.
    + intros k v d r Hmd Hfile _.
      rewrite (proj2 (load_model_fresh_metadata _ _ _ _ _ _ Hload Hmd) _ Hfile).
      reflexivity.
    + intros r Hmd Hfile _.
      rewrite (proj1 (load_model_fresh_metadata _ _ _ _ _ _ Hload Hmd) Hfile).
      reflexivity.
Qed.

(** C2: when [predict] returns a response for a batch on which the model's
    [predict] returned its labels, one per record of the batch, the response
    holds as many results as the batch holds records (and the batch is not
    empty), the labels of the results are the model's labels in the model's
    order, and at every index the result carries the label computed for the
    row that is the dump of the record at that index. *)
Theorem C2_one_result_per_record_in_order
    (e : env) (payload : PredictRequest) (g g' : globals)
    (response : PredictResponse) (tr : list io_event)
    (m : Model.t) (labels : list value) :
  predict e payload g = (inr response, g', tr) ->
  _model g' = Some m ->
  Model.predict m (pd_DataFrame (map model_dump (movies payload))) = inr labels ->
  List.length labels = List.length (movies payload) ->
  movies payload <> []
  /\ List.length (predictions response) = List.length (movies payload)
  /\ map (fun r => VStr (rating_category r)) (predictions response) = labels
  /\ (forall i movie,
        nth_error (movies payload) i = Some movie ->
        exists r,
          nth_error (predictions response) i = Some r
          /\ nth_error labels i = Some (VStr (rating_category r))
          /\ nth_error (pd_DataFrame (map model_dump (movies payload))) i
             = Some (model_dump movie)).
Proof.
  intros H Hm Hlabels Hlen.
  destruct (predict_returns _ _ _ _ _ _ H) as (_ & Hne & Hinf).
  destruct (inference_returns _ _ _ _ Hinf)
    as (m' & labels' & probs & Hm' & Hlabels' & _ & Hres & _).
  rewrite Hm in Hm'. inversion Hm'; subst m'.
  rewrite Hlabels in Hlabels'. inversion Hlabels'; subst labels'.
  destruct (build_results_appends _ _ _ _ _ Hres) as (fresh & Hfresh & Hmap & _).
  cbn [app] in Hfresh. subst fresh.
  assert (Hsize : List.length (predictions response) = List.length (movies payload)).
  { rewrite <- Hlen, <- Hmap, length_map. reflexivity. }
  split; [ exact Hne | split; [ exact Hsize | split; [ exact Hmap | ] ] ].
  intros i movie Hi.
  assert (Hlt : i < List.length (predictions response)).
  { rewrite Hsize. apply nth_error_Some. congruence. }
  destruct (nth_error (predictions response) i) as [r | ] eqn:Hr;
    [ | apply nth_error_None in Hr; lia ].
  exists r. split; [ reflexivity | split ].
  - rewrite <- Hmap. rewrite nth_error_map, Hr. reflexivity.
  - unfold pd_DataFrame. rewrite nth_error_map, Hi. reflexivity.
Qed.

Lemma C2_witness :
  predict (sample_env (Some (inr (Some stub_model))) None)
    {| movies := [movie_2005; movie_2005] |} unloaded
  = (inr {| predictions :=
              [ {| rating_category := "Good"; confidence := Some (91 # 100)%Q |};
                {| rating_category := "Good"; confidence := Some (91 # 100)%Q |} ];
            model_name := "unknown";
            model_metrics := [] |},
     loaded_stub, [ExistsModel; JoblibLoad; ExistsMetadata])
  /\ Model.predict stub_model (pd_DataFrame (map model_dump [movie_2005; movie_2005]))
     = inr [VStr "Good"; VStr "Good"]
  /\ List.length (predictions
               {| predictions :=
                    [ {| rating_category := "Good"; confidence := Some (91 # 100)%Q |};
                      {| rating_category := "Good"; confidence := Some (91 # 100)%Q |} ];
                  model_name := "unknown";
                  model_metrics := [] |})
     = List.length [movie_2005; movie_2005].
Proof.
  split; [ reflexivity | split; [ reflexivity | ] ].
  exact (proj1 (proj2 (C2_one_result_per_record_in_order
                         (sample_env (Some (inr (Some stub_model))) None)
                         {| movies := [movie_2005; movie_2005] |} unloaded _ _ _
                         stub_model [VStr "Good"; VStr "Good"]
                         eq_refl eq_refl eq_refl eq_refl))).
Defined.

(** C3: take a response of [predict].  If the model has [predict_proba] and
    that returned one row of probabilities per record of the batch, every
    result has a confidence, which is the largest entry of the row at the
    result's index, hence between 0 and 1.  If the model has no
    [predict_proba], every result has no confidence at all, and so not the
    confidence 0. *)
Theorem C3_confidence_is_the_row_maximum_or_absent
    (e : env) (payload : PredictRequest) (g g' : globals)
    (response : PredictResponse) (tr : list io_event) (m : Model.t) :
  predict e payload g = (inr response, g', tr) ->
  _model g' = Some m ->
  match Model.predict_proba m with
  | Some predict_proba =>
      forall proba,
        predict_proba (pd_DataFrame (map model_dump (movies payload))) = inr proba ->
        List.length proba = List.length (movies payload) ->
        Forall probabilities proba ->
        forall i r,
          nth_error (predictions response) i = Some r ->
          exists row c,
            nth_error proba i = Some row
            /\ confidence r = Some c
            /\ is_max c row
            /\ (0 <= c)%Q /\ (c <= 1)%Q
  | None =>
      Forall (fun r => confidence r = None /\ confidence r <> Some 0%Q)
             (predictions response)
  end.
Proof.
  intros H Hm.
  destruct (predict_returns _ _ _ _ _ _ H) as (_ & Hne & Hinf).
  destruct (inference_returns _ _ _ _ Hinf)
    as (m' & labels & probs & Hm' & _ & Hprobs & Hres & _).
  rewrite Hm in Hm', Hprobs. inversion Hm'; subst m'.
  destruct (build_results_appends _ _ _ _ _ Hres) as (fresh & Hfresh & _ & Hconf).
  cbn [app] in Hfresh. subst fresh.
  unfold call_probs in Hprobs.
  destruct (Model.predict_proba m) as [predict_proba | ].
  - intros proba Hproba Hrows Hdist i r Hr.
    rewrite Hproba in Hprobs. cbn [and_then] in Hprobs.
    destruct (max_axis1 proba) as [ex | ps] eqn:Hmax; cbn [and_then] in Hprobs;
      [ discriminate | ].
    inversion Hprobs; subst probs.
    pose proof (max_axis1_rows _ _ Hmax) as Hall.
    specialize (Hconf i r Hr). cbn [Nat.add] in Hconf.
    destruct ps as [ | p ps'].
    + inversion Hall as [Hproba0 | ]; subst.
      destruct (movies payload); [ congruence | discriminate Hrows ].
    + unfold confidence_at in Hconf.
      destruct (nth_error (p :: ps') i) as [c | ] eqn:Hc; [ | discriminate ].
      inversion Hconf as [Hcr].
      destruct (Forall2_nth_error_l _ _ _ _ _ Hall Hc) as (row & Hrow & Hmaxc).
      exists row, c. split; [ exact Hrow | split; [ reflexivity | split; [ exact Hmaxc | ] ] ].
      apply nth_error_In in Hrow.
      pose proof (proj1 (Forall_forall _ _) Hdist row Hrow) as Hp.
      exact (proj1 (Forall_forall _ _) Hp c (proj1 Hmaxc)).
  - inversion Hprobs; subst probs.
    apply Forall_forall. intros r Hin.
    destruct (In_nth_error _ _ Hin) as [i Hi].
    specialize (Hconf i r Hi). cbn in Hconf. inversion Hconf as [Hcr].
    split; [ reflexivity | discriminate ].
Qed.

Lemma stub_row_probabilities : Forall probabilities [[5 # 100; 91 # 100; 4 # 100]%Q].
Proof.
  repeat constructor; unfold Qle; cbn; lia.
Qed.

Lemma C3_witness :
  predict (sample_env (Some (inr (Some stub_model))) None)
    {| movies := [movie_2005] |} unloaded
  = (inr {| predictions :=
              [ {| rating_category := "Good"; confidence := Some (91 # 100)%Q |} ];
            model_name := "unknown";
            model_metrics := [] |},
     loaded_stub, [ExistsModel; JoblibLoad; ExistsMetadata])
  /\ (exists row c,
        nth_error [[5 # 100; 91 # 100; 4 # 100]%Q] 0 = Some row
        /\ confidence {| rating_category := "Good"; confidence := Some (91 # 100)%Q |}
           = Some c
        /\ is_max c row
        /\ (0 <= c)%Q /\ (c <= 1)%Q)
  /\ Forall (fun r => confidence r = None /\ confidence r <> Some 0%Q)
       [ {| rating_category := "Average"; confidence := None |} ].
Proof.
  split; [ reflexivity | split ].
  - exact (C3_confidence_is_the_row_maximum_or_absent
             (sample_env (Some (inr (Some stub_model))) None)
             {| movies := [movie_2005] |} unloaded _ _ _ stub_model
             eq_refl eq_refl
             [[5 # 100; 91 # 100; 4 # 100]%Q] eq_refl eq_refl stub_row_probabilities
             0 {| rating_category := "Good"; confidence := Some (91 # 100)%Q |} eq_refl).
  - exact (C3_confidence_is_the_row_maximum_or_absent
             (sample_env (Some (inr (Some plain_model))) None)
             {| movies := [movie_2005] |} unloaded
             {| _model := Some plain_model; _metadata := VNone |}
             {| predictions := [ {| rating_category := "Average"; confidence := None |} ];
                model_name := "unknown"; model_metrics := [] |}
             [ExistsModel; JoblibLoad; ExistsMetadata] plain_model
             eq_refl eq_refl).
Defined.

(** ** When [predict] returns *)

Lemma max_axis1_total (proba : list (list Q)) :
  Forall (fun row => row <> []) proba ->
  exists probs, max_axis1 proba = inr probs /\ List.length probs = List.length proba.
Proof.
  induction 1 as [ | row rest Hrow _ (probs & IH & Hlen)]; cbn.
  - exists []. split; reflexivity.
  - destruct row as [ | x xs]; [ congruence | ].
    rewrite IH. cbn. eexists. split; [ reflexivity | cbn; rewrite Hlen; reflexivity ].
Qed.

Lemma confidence_at_total (probs : option (list Q)) (i : nat) :
  match probs with Some ps => i < List.length ps | None => True end ->
  exists conf, confidence_at probs i = inr conf.
Proof.
  destruct probs as [[ | p ps] | ]; cbn [confidence_at]; eauto.
  intros Hi. apply nth_error_Some in Hi.
  destruct (nth_error (p :: ps) i) as [c | ]; [ eauto | congruence ].
Qed.

Lemma build_results_total (labels : list value) (probs : option (list Q))
    (i : nat) (acc : list PredictionResult) :
  Forall is_label labels ->
  match probs with
  | Some ps => i + List.length labels <= List.length ps
  | None => True
  end ->
  exists results, build_results labels probs i acc = inr results.
Proof.
  intros Hlabels. revert i acc.
  induction Hlabels as [ | label rest [s ->] _ IH]; intros i acc Hprobs; cbn.
  - eauto.
  - destruct (confidence_at_total probs i) as [conf ->].
    { destruct probs; [ cbn in Hprobs; lia | exact I ]. }
    cbn. apply IH.
    destruct probs; [ cbn in Hprobs; lia | exact I ].
Qed.

(** With a loaded model that answers the batch as an estimator should, and
    metadata the response can be built from, [predict] returns a response on
    every non-empty batch, and leaves the globals and the trace of the load. *)
Theorem predict_returns_a_response
    (e : env) (payload : PredictRequest) (g g1 : globals)
    (m : Model.t) (metadata : value) (tr : list io_event) :
  load_model e g = (inr (Some m, metadata), g1, tr) ->
  movies payload <> [] ->
  answers m (pd_DataFrame (map model_dump (movies payload))) ->
  usable_metadata metadata ->
  exists response,
    predict e payload g = (inr response, g1, tr)
    /\ List.length (predictions response) = List.length (movies payload).
Proof.
  intros Hload Hne [(labels & Hlabels & Hlen & Hstr) Hproba] Hmd.
  assert (Hprobs : exists probs,
            call_probs (Some m) (pd_DataFrame (map model_dump (movies payload))) = inr probs
            /\ match probs with
               | Some ps => 0 + List.length labels <= List.length ps
               | None => True
               end).
  { unfold call_probs. destruct (Model.predict_proba m) as [predict_proba | ].
    - destruct Hproba as (proba & -> & Hrows & Hall). cbn [and_then].
      destruct (max_axis1_total proba Hall) as (ps & -> & Hps).
      cbn. eexists. split; [ reflexivity | cbn; lia ].
    - exists None. split; [ reflexivity | exact I ]. }
  destruct Hprobs as (probs & Hprobs & Hbound).
  destruct (build_results_total labels probs 0 [] Hstr Hbound) as [results Hres].
  assert (Hresp : exists name metrics,
            (if truthy metadata then get metadata "model_name" (VStr "unknown")
             else inr (VStr "unknown")) = inr (VStr name)
            /\ (if truthy metadata then get metadata "metrics" (VDict [])
                else inr (VDict [])) = inr (VDict metrics)).
  { destruct Hmd as [-> | (d & -> & Hname & Hmetrics)]; [ eauto | ].
    destruct (truthy (VDict d)); [ | eauto ].
    cbn [get].
    destruct Hname as [-> | [s ->]]; destruct Hmetrics as [-> | [ms ->]]; eauto. }
  destruct Hresp as (name & metrics & Hname & Hmetrics).
  exists {| predictions := results; model_name := name; model_metrics := metrics |}.
  assert (Hinf : inference (Some m) metadata payload
                 = inr {| predictions := results; model_name := name;
                          model_metrics := metrics |}).
  { unfold inference. cbn [call_predict]. rewrite Hlabels. cbn [and_then].
    rewrite Hprobs. cbn [and_then]. rewrite Hres. cbn [and_then].
    rewrite Hname. cbn [and_then]. rewrite Hmetrics. reflexivity. }
  split.
  - rewrite predict_stages, Hload.
    destruct (movies payload) as [ | movie rest]; [ congruence | ].
    rewrite Hinf. reflexivity.
  - cbn [predictions].
    destruct (build_results_appends _ _ _ _ _ Hres) as (fresh & -> & Hmap & _).
    cbn [app]. rewrite <- (length_map (fun r => VStr (rating_category r))), Hmap, Hlen.
    unfold pd_DataFrame. apply length_map.
Qed.

Lemma predict_returns_a_response_witness :
  answers stub_model (pd_DataFrame (map model_dump [movie_2005]))
  /\ usable_metadata rf_v2
  /\ exists response,
       predict (sample_env (Some (inr (Some stub_model))) (Some (inr rf_v2)))
         {| movies := [movie_2005] |} unloaded
       = (inr response, {| _model := Some stub_model; _metadata := rf_v2 |},
          [ExistsModel; JoblibLoad; ExistsMetadata; JsonLoad])
       /\ List.length (predictions response) = List.length [movie_2005].
Proof.
  assert (Ha : answers stub_model (pd_DataFrame (map model_dump [movie_2005]))).
  { split.
    - exists [VStr "Good"]. repeat split. repeat constructor. exists "Good". reflexivity.
    - cbn. eexists. repeat split. repeat constructor. discriminate. }
  assert (Hu : usable_metadata rf_v2).
  { right. eexists. split; [ reflexivity | split; right; eexists; reflexivity ]. }
  split; [ exact Ha | split; [ exact Hu | ] ].
  apply (predict_returns_a_response
           (sample_env (Some (inr (Some stub_model))) (Some (inr rf_v2)))
           {| movies := [movie_2005] |} unloaded _ stub_model rf_v2 _ eq_refl).
  - discriminate.
  - exact Ha.
  - exact Hu.
Defined.

(** Whatever [predict] answers, what it does to the globals and to the file
    system is what its call to [load_model] does. *)
Theorem predict_effects_are_those_of_load_model
    (e : env) (payload : PredictRequest) (g : globals) :
  final (predict e payload g) = final (load_model e g)
  /\ trace (predict e payload g) = trace (load_model e g).
Proof.
  rewrite predict_stages.
  destruct (load_model e g) as [[[ex | [model metadata]] g1] tr].
  - destruct ex; split; reflexivity.
  - destruct (movies payload) as [ | movie rest]; [ split; reflexivity | ].
    destruct (inference model metadata payload); split; reflexivity.
Qed.

(** ** Further properties of the cache *)

(** Case analysis on everything [load_model] looks at. *)
Ltac load_model_cases e g :=
  let mo := fresh "mo" in
  let md0 := fresh "md0" in
  let mf := fresh "mf" in
  let mdf := fresh "mdf" in
  destruct g as [mo md0];
  destruct e as [? ? mf mdf];
  destruct mo as [? | ];
  destruct mf as [? | [[? | [? | ]] | ]];
  destruct md0;
  destruct mdf as [? | [[? | ?] | ]].

(** In an unchanged environment one call settles the cache: a second call
    leaves the globals as the first left them and ends the way the first
    ended, whether that was a return or an exception. *)
Lemma load_model_settles (e : env) (g : globals) :
  final (load_model e (final (load_model e g))) = final (load_model e g)
  /\ result (load_model e (final (load_model e g))) = result (load_model e g).
Proof.
  load_model_cases e g; try (split; reflexivity);
    match goal with v : value |- _ => destruct v; split; reflexivity end.
Qed.

(** A cached metadata document is kept, and the metadata file is then not
    even tested for existence. *)
Lemma load_model_keeps_metadata (e : env) (g : globals) :
  _metadata g <> VNone ->
  _metadata (final (load_model e g)) = _metadata g
  /\ count ExistsMetadata (trace (load_model e g)) = 0
  /\ count JsonLoad (trace (load_model e g)) = 0.
Proof.
  load_model_cases e g; cbn; intros H; try (exfalso; apply H; reflexivity);
    repeat split.
Qed.

(** The two handlers that load leave the globals and the trace of their call
    to [load_model]. *)
Lemma handlers_follow_the_load (e : env) (payload : PredictRequest) (g : globals) :
  final (predict e payload g) = final (load_model e g)
  /\ trace (predict e payload g) = trace (load_model e g)
  /\ final (model_info e g) = final (load_model e g)
  /\ trace (model_info e g) = trace (load_model e g).
Proof.
  rewrite predict_stages, model_info_stages.
  destruct (load_model e g) as [[[ex | [model metadata]] g1] tr].
  - destruct ex; repeat split.
  - destruct (movies payload) as [ | movie rest]; [ repeat split | ].
    destruct (inference model metadata payload); repeat split.
Qed.

(** How a handler ends depends on the load only through how the load ends. *)
Lemma handlers_depend_on_the_load_result (e e' : env) (payload : PredictRequest)
    (g g' : globals) :
  result (load_model e g) = result (load_model e' g') ->
  result (predict e payload g) = result (predict e' payload g')
  /\ result (model_info e g) = result (model_info e' g').
Proof.
  rewrite !predict_stages, !model_info_stages.
  destruct (load_model e g) as [[r g1] tr], (load_model e' g') as [[r' g1'] tr'].
  unfold result; cbn [fst]. intros <-.
  destruct r as [ex | [model metadata]].
  - destruct ex; split; reflexivity.
  - destruct (movies payload) as [ | movie rest]; [ split; reflexivity | ].
    destruct (inference model metadata payload); split; reflexivity.
Qed.

(** What a request does to the globals and to the file system. *)
Lemma serve_effects (e : env) (ep : endpoint) (g : globals) :
  match ep with
  | GetRoot => final (serve e ep g) = g /\ trace (serve e ep g) = []
  | GetHealth =>
      final (serve e ep g) = g
      /\ (trace (serve e ep g) = [ExistsModel]
          \/ trace (serve e ep g) = [ExistsModel; ExistsMetadata])
  | GetModelInfo | PostPredict _ =>
      final (serve e ep g) = final (load_model e g)
      /\ trace (serve e ep g) = trace (load_model e g)
  end.
Proof.
  destruct ep as [ | | | payload].
  - split; reflexivity.
  - unfold serve, health, MODEL_PATH_exists, METADATA_PATH_exists, exists_, try_except,
      bind, emit, ret, raise, final, trace.
    destruct (model_file e) as [ex | [r | ]]; destruct (metadata_file e) as [ex' | [r' | ]];
      cbn; auto.
  - destruct (handlers_follow_the_load e empty_request g) as (_ & _ & Hf & Ht).
    revert Hf Ht. unfold serve, bind, ret, final, trace.
    destruct (model_info e g) as [[[ex | v] g1] tr]; cbn; intros <- <-;
      rewrite ?app_nil_r; split; reflexivity.
  - destruct (handlers_follow_the_load e payload g) as (Hf & Ht & _ & _).
    revert Hf Ht. unfold serve, bind, ret, final, trace.
    destruct (predict e payload g) as [[[ex | v] g1] tr]; cbn; intros <- <-;
      rewrite ?app_nil_r; split; reflexivity.
Qed.

(** Case analysis on the endpoint, with the effects of the request. *)
Ltac serve_cases ep He :=
  destruct ep;
  [ destruct He as [-> ->]
  | destruct He as [-> [-> | ->]]
  | destruct He as [-> ->]
  | destruct He as [-> ->] ].

(** How a request ends, from how its handler ends. *)
Lemma serve_result (e : env) (ep : endpoint) (g : globals) :
  result (serve e ep g)
  = match ep with
    | GetRoot => match result (root g) with inl ex => inl ex | inr v => inr (Json v) end
    | GetHealth =>
        match result (health e g) with inl ex => inl ex | inr v => inr (Json v) end
    | GetModelInfo =>
        match result (model_info e g) with inl ex => inl ex | inr v => inr (Json v) end
    | PostPredict payload =>
        match result (predict e payload g) with
        | inl ex => inl ex
        | inr r => inr (Prediction r)
        end
    end.
Proof.
  destruct ep as [ | | | payload]; [ reflexivity | | | ]; unfold serve, bind, ret, result.
  - destruct (health e g) as [[[ex | v] g1] tr]; reflexivity.
  - destruct (model_info e g) as [[[ex | v] g1] tr]; reflexivity.
  - destruct (predict e payload g) as [[[ex | v] g1] tr]; reflexivity.
Qed.

(** Retrying a request in an unchanged environment: whatever the endpoint
    and whatever the state of the cache before the first attempt, the second
    attempt ends exactly as the first did (same response or same HTTP error)
    and leaves the globals as the first left them. *)
Theorem retried_request_ends_the_same
    (e : env) (ep : endpoint) (g : globals) :
  result (serve e ep (final (serve e ep g))) = result (serve e ep g)
  /\ final (serve e ep (final (serve e ep g))) = final (serve e ep g).
Proof.
  destruct (load_model_settles e g) as [Hfinal Hresult].
  pose proof (serve_effects e ep g) as He.
  pose proof (serve_effects e ep (final (serve e ep g))) as He'.
  rewrite !serve_result.
  destruct ep as [ | | | payload].
  - split; [ reflexivity | ]. destruct He as [-> _]. exact (proj1 (serve_effects e GetRoot g)).
  - destruct He as [Hg _]. rewrite Hg. split; [ reflexivity | exact Hg ].
  - destruct He as [Hg _], He' as [Hg' _]. rewrite Hg in *. split.
    + rewrite (proj2 (handlers_depend_on_the_load_result
                        e e empty_request (final (load_model e g)) g Hresult)).
      reflexivity.
    + rewrite Hg'. exact Hfinal.
  - destruct He as [Hg _], He' as [Hg' _]. rewrite Hg in *. split.
    + rewrite (proj1 (handlers_depend_on_the_load_result
                        e e payload (final (load_model e g)) g Hresult)).
      reflexivity.
    + rewrite Hg'. exact Hfinal.
Qed.

(** ** The life of a process *)

Lemma serve_keeps_model (e : env) (ep : endpoint) (g : globals) (m : Model.t) :
  _model g = Some m ->
  _model (final (serve e ep g)) = Some m
  /\ count JoblibLoad (trace (serve e ep g)) = 0.
Proof.
  intros Hm. pose proof (serve_effects e ep g) as He.
  destruct (load_model_cached_frame e g m Hm) as (Hkeep & _ & Hjl).
  serve_cases ep He; auto.
Qed.

Lemma serve_keeps_metadata (e : env) (ep : endpoint) (g : globals) :
  _metadata g <> VNone ->
  _metadata (final (serve e ep g)) = _metadata g
  /\ count JsonLoad (trace (serve e ep g)) = 0.
Proof.
  intros Hmd. pose proof (serve_effects e ep g) as He.
  destruct (load_model_keeps_metadata e g Hmd) as (Hkeep & _ & Hjl).
  serve_cases ep He; auto.
Qed.

Lemma after_keeps_metadata (requests : list (env * endpoint)) (g : globals) :
  _metadata g <> VNone ->
  _metadata (after requests g) = _metadata g
  /\ count JsonLoad (accesses requests g) = 0.
Proof.
  revert g. induction requests as [ | [e ep] rest IH]; intros g Hmd; cbn [after accesses].
  - split; reflexivity.
  - destruct (serve_keeps_metadata e ep g Hmd) as [Hkeep Hjl].
    destruct (IH (final (serve e ep g))) as [IHkeep IHjl]; [ congruence | ].
    rewrite count_app, Hjl, IHjl, IHkeep. split; [ exact Hkeep | reflexivity ].
Qed.

(** Once a handle is in [_model], no request of the process, whatever its
    endpoint and whatever the environment has become, replaces it or
    deserializes the model file again. *)
Theorem cached_model_is_never_reloaded
    (requests : list (env * endpoint)) (g : globals) (m : Model.t) :
  _model g = Some m ->
  _model (after requests g) = Some m
  /\ count JoblibLoad (accesses requests g) = 0.
Proof.
  revert g. induction requests as [ | [e ep] rest IH]; intros g Hm; cbn [after accesses].
  - split; [ exact Hm | reflexivity ].
  - destruct (serve_keeps_model e ep g m Hm) as [Hkeep Hjl].
    destruct (IH _ Hkeep) as [IHkeep IHjl].
    rewrite count_app, Hjl, IHjl. split; [ exact IHkeep | reflexivity ].
Qed.

Lemma cached_model_is_never_reloaded_witness :
  _model loaded_stub = Some stub_model
  /\ _model (after [ (sample_env None None, PostPredict {| movies := [movie_2005] |});
                     (sample_env (Some (inl unpickling_error)) None, GetModelInfo);
                     (sample_env (Some (inr (Some plain_model))) None, GetHealth);
                     (sample_env (Some (inr (Some plain_model))) None,
                      PostPredict {| movies := [movie_2005] |}) ]
                   loaded_stub)
     = Some stub_model.
Proof.
  split; [ reflexivity | ].
  exact (proj1 (cached_model_is_never_reloaded _ loaded_stub stub_model eq_refl)).
Defined.

(** With a handle cached, the answers of [/predict] and [/model-info] no
    longer depend on the model file or on the configured paths: two
    environments with the same metadata file give the same run, and once the
    metadata is cached too any two environments do, the request then
    touching neither the globals nor the file system. *)
Theorem cached_model_outlives_its_file
    (e e' : env) (ep : endpoint) (g : globals) (m : Model.t) :
  _model g = Some m ->
  ep <> GetHealth ->
  (metadata_file e = metadata_file e' -> serve e ep g = serve e' ep g)
  /\ (_metadata g <> VNone ->
      serve e ep g = serve e' ep g
      /\ final (serve e ep g) = g
      /\ trace (serve e ep g) = []).
Proof.
  intros Hm Hep.
  assert (Hserve : load_model e g = load_model e' g -> serve e ep g = serve e' ep g).
  { intros Hload. destruct ep as [ | | | payload]; [ reflexivity | congruence | | ].
    - unfold serve, bind. rewrite !model_info_stages, Hload. reflexivity.
    - unfold serve, bind. rewrite !predict_stages, Hload. reflexivity. }
  split.
  - intros Hfile. apply Hserve.
    rewrite (load_model_cached e g m Hm), (load_model_cached e' g m Hm), Hfile.
    reflexivity.
  - intros Hmd.
    assert (Hn : is_None (_metadata g) = false)
      by (destruct (_metadata g); [ congruence | reflexivity .. ]).
    assert (Hload : forall e0, load_model e0 g = (inr (Some m, _metadata g), g, [])).
    { intros e0. rewrite (load_model_cached e0 g m Hm), Hn. reflexivity. }
    split; [ apply Hserve; rewrite !Hload; reflexivity | ].
    pose proof (serve_effects e ep g) as He. rewrite Hload in He.
    destruct ep; [ exact He | congruence | exact He | exact He ].
Qed.

Lemma cached_model_outlives_its_file_witness :
  _model loaded_stub = Some stub_model
  /\ PostPredict {| movies := [movie_2005] |} <> GetHealth
  /\ serve (sample_env None None) (PostPredict {| movies := [movie_2005] |}) loaded_stub
     = serve (sample_env (Some (inr (Some plain_model))) None)
         (PostPredict {| movies := [movie_2005] |}) loaded_stub.
Proof.
  split; [ reflexivity | split; [ discriminate | ] ].
  refine (proj1 (cached_model_outlives_its_file
                   (sample_env None None) (sample_env (Some (inr (Some plain_model))) None)
                   (PostPredict {| movies := [movie_2005] |}) loaded_stub stub_model
                   eq_refl _) eq_refl).
  discriminate.
Defined.

(** The metadata [/model-info] has served is never refreshed: whatever
    requests follow and whatever becomes of the metadata file, every later
    response of [/predict] is built from that same document, with its
    [model_name] and its [metrics], and none of those requests parses the
    file again. *)
Theorem served_metadata_is_never_refreshed
    (e1 e2 : env) (g g1 g2 : globals) (doc : value) (tr1 tr2 : list io_event)
    (requests : list (env * endpoint)) (payload : PredictRequest)
    (response : PredictResponse) :
  model_info e1 g = (inr doc, g1, tr1) ->
  truthy (_metadata g1) = true ->
  predict e2 payload (after requests g1) = (inr response, g2, tr2) ->
  _metadata g2 = doc
  /\ count JsonLoad (accesses requests g1 ++ tr2) = 0
  /\ (forall name, field doc "model_name" = Some name ->
                   VStr (model_name response) = name)
  /\ (forall metrics, field doc "metrics" = Some metrics ->
                      VDict (model_metrics response) = metrics).
Proof.
  intros Hinfo Htruthy Hpredict.
  assert (Hdoc : doc = _metadata g1).
  { rewrite model_info_stages in Hinfo.
    destruct (load_model e1 g) as [[[ex | [model metadata]] g'] tr] eqn:Hload;
      [ discriminate | ].
    pose proof (load_model_returns_globals _ _ _ _ _ _ Hload) as Hg'.
    inversion Hinfo; subst. cbn [_metadata] in *. rewrite Htruthy. reflexivity. }
  assert (Hsome : _metadata g1 <> VNone).
  { intros Hnone. rewrite Hnone in Htruthy. discriminate. }
  destruct (after_keeps_metadata requests g1 Hsome) as [Hafter Hjl].
  destruct (predict_returns _ _ _ _ _ _ Hpredict) as (Hload & _ & Hinf).
  assert (Hsome' : _metadata (after requests g1) <> VNone) by congruence.
  destruct (load_model_keeps_metadata e2 _ Hsome') as (Hkeep & _ & Hjl2).
  rewrite Hload in Hkeep, Hjl2. unfold final, trace in Hkeep, Hjl2. cbn [fst snd] in Hkeep, Hjl2.
  assert (Hg2 : _metadata g2 = doc) by congruence.
  destruct (inference_returns _ _ _ _ Hinf)
    as (m & labels & probs & _ & _ & _ & _ & Hname & Hmetrics).
  rewrite Hg2 in Hname, Hmetrics.
  split; [ exact Hg2 | split; [ rewrite count_app, Hjl, Hjl2; reflexivity | split ] ].
  - intros name Hf.
    destruct (get_field _ _ (VStr "unknown") _ Hf) as [Ht Hg].
    rewrite Ht, Hg in Hname. inversion Hname; reflexivity.
  - intros metrics Hf.
    destruct (get_field _ _ (VDict []) _ Hf) as [Ht Hg].
    rewrite Ht, Hg in Hmetrics. inversion Hmetrics; reflexivity.
Qed.

Lemma served_metadata_is_never_refreshed_witness :
  model_info (sample_env (Some (inr (Some stub_model))) (Some (inr rf_v2))) unloaded
  = (inr rf_v2, {| _model := Some stub_model; _metadata := rf_v2 |},
     [ExistsModel; JoblibLoad; ExistsMetadata; JsonLoad])
  /\ result (predict
               (sample_env None (Some (inr (VDict [ ("model_name", VStr "rf_v3") ]))))
               {| movies := [movie_2005] |}
               (after [ (sample_env None (Some (inr (VDict [ ("model_name", VStr "rf_v3") ]))),
                         GetModelInfo) ]
                      {| _model := Some stub_model; _metadata := rf_v2 |}))
     = inr {| predictions :=
                [ {| rating_category := "Good"; confidence := Some (91 # 100)%Q |} ];
              model_name := "rf_v2";
              model_metrics := [ ("f1", VNum (82 # 100)) ] |}
  /\ VStr (model_name
             {| predictions :=
                  [ {| rating_category := "Good"; confidence := Some (91 # 100)%Q |} ];
                model_name := "rf_v2";
                model_metrics := [ ("f1", VNum (82 # 100)) ] |})
     = VStr "rf_v2".
Proof.
  split; [ reflexivity | split; [ reflexivity | ] ].
  exact (proj1 (proj2 (proj2
           (served_metadata_is_never_refreshed
              (sample_env (Some (inr (Some stub_model))) (Some (inr rf_v2)))
              (sample_env None (Some (inr (VDict [ ("model_name", VStr "rf_v3") ]))))
              unloaded _ _ rf_v2 _ _
              [ (sample_env None (Some (inr (VDict [ ("model_name", VStr "rf_v3") ]))),
                 GetModelInfo) ]
              {| movies := [movie_2005] |} _
              eq_refl eq_refl eq_refl)))
           (VStr "rf_v2") eq_refl).
Defined.

(** A call to [load_model] that raises never changes [_metadata]; and it
    changes [_model] in one situation only: nothing was cached, the model
    file deserialized, and the exception is the one raised while reading the
    metadata file, or while testing whether it exists. *)
Theorem failed_load_changes_at_most_the_model
    (e : env) (g : globals) (ex : exn) :
  result (load_model e g) = inl ex ->
  _metadata (final (load_model e g)) = _metadata g
  /\ (_model (final (load_model e g)) = _model g
      \/ (_model g = None
          /\ model_file e = Some (inr (_model (final (load_model e g))))
          /\ (metadata_file e = Some (inl ex) \/ metadata_file e = Inaccessible ex))).
Proof.
  load_model_cases e g; cbn; intros H; try discriminate H;
    (split; [ reflexivity | ]);
    first [ left; reflexivity
          | right; inversion H; repeat split; first [ left; reflexivity | right; reflexivity ] ].
Qed.

Lemma failed_load_changes_at_most_the_model_witness :
  result (load_model (sample_env (Some (inr (Some stub_model)))
                        (Some (inl json_decode_error))) unloaded)
  = inl json_decode_error
  /\ _metadata (final (load_model (sample_env (Some (inr (Some stub_model)))
                                     (Some (inl json_decode_error))) unloaded))
     = _metadata unloaded.
Proof.
  split; [ reflexivity | ].
  exact (proj1 (failed_load_changes_at_most_the_model
                  (sample_env (Some (inr (Some stub_model))) (Some (inl json_decode_error)))
                  unloaded json_decode_error eq_refl)).
Defined.

(** A model file that unpickles to Python's [None] is never cached: the
    test [_model is None] cannot tell it from an empty cache.  As long as
    that is what the file holds, every request to [/predict] and
    [/model-info] deserializes it again, [_model] stays [None], and no
    request to [/predict] is answered with a response. *)
Theorem unpickled_None_is_loaded_on_every_request
    (requests : list (env * endpoint)) (g : globals) :
  _model g = None ->
  Forall (fun request => model_file (fst request) = Some (inr None)) requests ->
  _model (after requests g) = None
  /\ count JoblibLoad (accesses requests g)
     = List.length (filter (fun request => loads (snd request)) requests)
  /\ (forall e payload response,
        model_file e = Some (inr None) ->
        result (predict e payload (after requests g)) <> inr response).
Proof.
  intros Hm Hall.
  assert (Hstep : forall e g0, _model g0 = None -> model_file e = Some (inr None) ->
            _model (final (load_model e g0)) = None
            /\ count JoblibLoad (trace (load_model e g0)) = 1
            /\ forall r, result (load_model e g0) = inr r -> fst r = None).
  { intros e g0 Hm0 Hf. rewrite (load_model_unloaded_loads e g0 None Hm0 Hf).
    destruct (is_None (_metadata g0)); [ destruct (metadata_file e) as [ex | [[ex | md] | ]] | ];
      cbn; repeat split; intros r Hr; inversion Hr; reflexivity. }
  assert (Hrun : _model (after requests g) = None
                 /\ count JoblibLoad (accesses requests g)
                    = List.length (filter (fun request => loads (snd request)) requests)).
  { revert g Hm. induction Hall as [ | [e ep] rest Hf _ IH]; intros g Hm;
      cbn [after accesses filter]; [ split; [ exact Hm | reflexivity ] | ].
    cbn [fst snd] in *.
    destruct (Hstep e g Hm Hf) as (Hkeep & Hone & _).
    pose proof (serve_effects e ep g) as He.
    rewrite count_app.
    serve_cases ep He; cbn [loads List.length];
      first [ destruct (IH _ Hkeep) as [-> ->]; rewrite Hone; split; reflexivity
            | destruct (IH _ Hm) as [-> ->]; split; reflexivity ]. }
  split; [ exact (proj1 Hrun) | split; [ exact (proj2 Hrun) | ] ].
  intros e payload response Hf Hr.
  destruct (Hstep e _ (proj1 Hrun) Hf) as (_ & _ & Hnone).
  rewrite predict_stages in Hr.
  destruct (load_model e (after requests g)) as [[[ex | [model metadata]] g1] tr].
  - destruct ex; discriminate Hr.
  - specialize (Hnone _ eq_refl). cbn in Hnone. subst model.
    destruct (movies payload); discriminate Hr.
Qed.

Lemma unpickled_None_is_loaded_on_every_request_witness :
  _model unloaded = None
  /\ count JoblibLoad
       (accesses [ (sample_env (Some (inr None)) None, GetModelInfo);
                   (sample_env (Some (inr None)) None, GetHealth);
                   (sample_env (Some (inr None)) None,
                    PostPredict {| movies := [movie_2005] |}) ]
                 unloaded)
     = 2.
Proof.
  split; [ reflexivity | ].
  refine (proj1 (proj2 (unpickled_None_is_loaded_on_every_request
                          [ (sample_env (Some (inr None)) None, GetModelInfo);
                            (sample_env (Some (inr None)) None, GetHealth);
                            (sample_env (Some (inr None)) None,
                             PostPredict {| movies := [movie_2005] |}) ]
                          unloaded eq_refl _))).
  repeat constructor.
Defined.

(** With nothing cached and no model file, the three endpoints disagree on
    the report: [/predict] raises 503 and [/model-info] raises 500, the two
    errors with the same detail, while [/health] answers normally, with
    status "model_missing" and the path the detail names if the metadata
    path can be tested, and with status "error" if it cannot.  None of them
    changes the globals, and the two that load stop at the existence test of
    the model file. *)
Theorem missing_model_is_503_for_predict_and_500_for_model_info
    (e : env) (payload : PredictRequest) (g : globals) :
  _model g = None ->
  model_file e = None ->
  predict e payload g
  = (inl (HTTPException 503 ("Model not found at " ++ MODEL_PATH e)), g, [ExistsModel])
  /\ model_info e g
     = (inl (HTTPException 500 ("Model not found at " ++ MODEL_PATH e)), g, [ExistsModel])
  /\ final (health e g) = g
  /\ match metadata_file e with
     | Stat _ =>
         exists report,
           result (health e g) = inr report
           /\ field report "status" = Some (VStr "model_missing")
           /\ field report "model_path" = Some (VStr (MODEL_PATH e))
     | Inaccessible ex =>
         result (health e g)
         = inr (VDict [ ("status", VStr "error"); ("detail", VStr (str ex)) ])
     end.
Proof.
  intros Hm Hf.
  rewrite predict_stages, model_info_stages.
  rewrite (proj1 (load_model_unloaded_fails e g Hm) Hf).
  split; [ reflexivity | split; [ reflexivity | ] ].
  unfold health, MODEL_PATH_exists, METADATA_PATH_exists, exists_, try_except, bind, emit,
    ret, raise, result, final. rewrite Hf.
  destruct (metadata_file e) as [ex | [r | ]]; cbn;
    (split; [ reflexivity | ]); first [ reflexivity | eexists; repeat split ].
Qed.

Lemma missing_model_is_503_for_predict_and_500_for_model_info_witness :
  _model unloaded = None
  /\ model_file (sample_env None (Some (inr rf_v2))) = None
  /\ model_info (sample_env None (Some (inr rf_v2))) unloaded
     = (inl (HTTPException 500 "Model not found at models/best_model.pkl"),
        unloaded, [ExistsModel]).
Proof.
  split; [ reflexivity | split; [ reflexivity | ] ].
  exact (proj1 (proj2 (missing_model_is_503_for_predict_and_500_for_model_info
                         (sample_env None (Some (inr rf_v2))) empty_request unloaded
                         eq_refl eq_refl))).
Defined.

(** The file-system accesses of a request are one of eight sequences.  So a
    request never reads a file it has not tested for existence just before,
    tests and reads each file at most once, and looks at the metadata file
    only after it is done with the model file. *)
Theorem request_accesses_follow_one_order (e : env) (ep : endpoint) (g : globals) :
  In (trace (serve e ep g))
     [ [];
       [ExistsModel; ExistsMetadata];
       [ExistsMetadata];
       [ExistsMetadata; JsonLoad];
       [ExistsModel];
       [ExistsModel; JoblibLoad];
       [ExistsModel; JoblibLoad; ExistsMetadata];
       [ExistsModel; JoblibLoad; ExistsMetadata; JsonLoad] ].
Proof.
  pose proof (serve_effects e ep g) as He.
  assert (Hload : In (trace (load_model e g))
                     [ [];
                       [ExistsModel; ExistsMetadata];
                       [ExistsMetadata];
                       [ExistsMetadata; JsonLoad];
                       [ExistsModel];
                       [ExistsModel; JoblibLoad];
                       [ExistsModel; JoblibLoad; ExistsMetadata];
                       [ExistsModel; JoblibLoad; ExistsMetadata; JsonLoad] ]).
  { clear He. load_model_cases e g; cbn; tauto. }
  destruct ep;
    [ destruct He as [_ ->]
    | destruct He as [_ [-> | ->]]
    | destruct He as [_ ->]
    | destruct He as [_ ->] ];
    first [ exact Hload | cbn; tauto ].
Qed.

(** ** When [predict] returns, exactly *)

Lemma gets_make_usable (metadata : value) (name : string)
    (metrics : list (string * value)) :
  (if truthy metadata then get metadata "model_name" (VStr "unknown")
   else inr (VStr "unknown")) = inr (VStr name) ->
  (if truthy metadata then get metadata "metrics" (VDict [])
   else inr (VDict [])) = inr (VDict metrics) ->
  usable_metadata metadata.
Proof.
  destruct (truthy metadata) eqn:Ht; [ | intros _ _; left; exact Ht ].
  destruct metadata; cbn [get]; try discriminate.
  intros Hname Hmetrics. right. exists d. split; [ reflexivity | split ].
  - destruct (lookup "model_name" d) as [v | ]; [ right | left; reflexivity ].
    inversion Hname. eauto.
  - destruct (lookup "metrics" d) as [v | ]; [ right | left; reflexivity ].
    inversion Hmetrics. eauto.
Qed.

Lemma usable_makes_gets (metadata : value) :
  usable_metadata metadata ->
  exists name metrics,
    (if truthy metadata then get metadata "model_name" (VStr "unknown")
     else inr (VStr "unknown")) = inr (VStr name)
    /\ (if truthy metadata then get metadata "metrics" (VDict [])
        else inr (VDict [])) = inr (VDict metrics).
Proof.
  intros [-> | (d & -> & Hname & Hmetrics)]; [ eauto | ].
  destruct (truthy (VDict d)); [ | eauto ].
  cbn [get].
  destruct Hname as [-> | [s ->]]; destruct Hmetrics as [-> | [ms ->]]; eauto.
Qed.

(** The loop returns exactly when every label is a string and every index
    it reaches is covered by [probs], if [probs] is a non-empty list. *)
Lemma build_results_returns_iff (labels : list value) (probs : option (list Q))
    (i : nat) (acc : list PredictionResult) :
  (exists results, build_results labels probs i acc = inr results)
  <-> Forall is_label labels
      /\ match probs with
         | Some (p :: ps) => labels = [] \/ i + List.length labels <= List.length (p :: ps)
         | _ => True
         end.
Proof.
  revert i acc. induction labels as [ | label rest IH]; intros i acc; cbn [build_results].
  - split; [ intros _ | eauto ]. split; [ constructor | ].
    destruct probs as [[ | p ps] | ]; auto.
  - split.
    + intros [results Hres].
      destruct (confidence_at probs i) as [ex | conf] eqn:Hconf; cbn [and_then] in Hres;
        [ discriminate | ].
      destruct label; cbn in Hres; try discriminate.
      destruct (proj1 (IH _ _) (ex_intro _ results Hres)) as [Hlabels Hbound].
      split; [ constructor; [ eexists; reflexivity | exact Hlabels ] | ].
      destruct probs as [[ | p ps] | ]; auto. right.
      unfold confidence_at in Hconf.
      destruct (nth_error (p :: ps) i) as [c | ] eqn:Hc; [ | discriminate ].
      assert (i < List.length (p :: ps)) by (apply nth_error_Some; congruence).
      destruct Hbound as [-> | Hbound]; cbn [List.length] in *; lia.
    + intros [Hlabels Hbound]. inversion Hlabels as [ | ? ? [s ->] Hrest]; subst.
      assert (Hconf : exists conf, confidence_at probs i = inr conf).
      { destruct probs as [[ | p ps] | ];
          [ eexists; reflexivity | | eexists; reflexivity ].
        apply confidence_at_total.
        destruct Hbound as [Hnil | Hbound]; [ discriminate | ].
        cbn [List.length] in *; lia. }
      destruct Hconf as [conf ->]. cbn.
      apply IH. split; [ exact Hrest | ].
      destruct probs as [[ | p ps] | ]; auto.
      destruct Hbound as [Hnil | Hbound]; [ discriminate | ].
      right. cbn [List.length] in *; lia.
Qed.

(** The probabilities step returns exactly when the model has no
    [predict_proba], or [predict_proba] returns a matrix without an empty
    row; [probs] then has one entry per row. *)
Lemma call_probs_returns_iff (m : Model.t) (X : DataFrame) (probs : option (list Q)) :
  call_probs (Some m) X = inr probs
  <-> match Model.predict_proba m with
      | Some predict_proba =>
          exists proba ps,
            predict_proba X = inr proba
            /\ max_axis1 proba = inr ps
            /\ probs = Some ps
      | None => probs = None
      end.
Proof.
  unfold call_probs. destruct (Model.predict_proba m) as [f | ].
  - split.
    + destruct (f X) as [ex | proba]; cbn [and_then]; [ discriminate | ].
      destruct (max_axis1 proba) as [ex | ps] eqn:Hmax; cbn [and_then]; [ discriminate | ].
      intros H; inversion H. exists proba, ps. auto.
    + intros (proba & ps & -> & Hmax & ->). cbn [and_then]. rewrite Hmax. reflexivity.
  - split; intros H; inversion H; reflexivity.
Qed.

Lemma max_axis1_returns_iff (proba : list (list Q)) :
  (exists ps, max_axis1 proba = inr ps) <-> Forall (fun row => row <> []) proba.
Proof.
  split.
  - intros [ps Hps]. pose proof (max_axis1_rows _ _ Hps) as Hall. clear Hps.
    induction Hall as [ | c row ps rest [Hin _] _ IH]; constructor; [ | exact IH ].
    intros ->. exact Hin.
  - intros Hall. destruct (max_axis1_total proba Hall) as (ps & Hps & _). eauto.
Qed.

(** The inference block returns exactly on a servable model and metadata. *)
Lemma inference_returns_iff (m : Model.t) (metadata : value) (payload : PredictRequest) :
  (exists response, inference (Some m) metadata payload = inr response)
  <-> servable m metadata (pd_DataFrame (map model_dump (movies payload))).
Proof.
  split.
  - intros [response Hinf].
    destruct (inference_returns _ _ _ _ Hinf)
      as (m' & labels & probs & Hm' & Hlabels & Hprobs & Hres & Hname & Hmetrics).
    inversion Hm'; subst m'.
    split; [ exact (gets_make_usable _ _ _ Hname Hmetrics) | ].
    exists labels.
    destruct (proj1 (build_results_returns_iff labels probs 0 [])
                (ex_intro _ _ Hres)) as [Hstr Hbound].
    split; [ exact Hlabels | split; [ exact Hstr | ] ].
    apply call_probs_returns_iff in Hprobs.
    destruct (Model.predict_proba m) as [f | ]; [ | exact I ].
    destruct Hprobs as (proba & ps & Hproba & Hmax & ->).
    exists proba. split; [ exact Hproba | ].
    split; [ apply max_axis1_returns_iff; eauto | ].
    pose proof (Forall2_length (max_axis1_rows _ _ Hmax)) as Hlen.
    destruct ps as [ | p ps].
    + left. destruct proba; [ reflexivity | discriminate Hlen ].
    + right. rewrite <- Hlen. destruct Hbound as [-> | Hbound]; cbn in *; lia.
  - intros (Hmd & labels & Hlabels & Hstr & Hproba).
    assert (Hprobs : exists probs,
              call_probs (Some m) (pd_DataFrame (map model_dump (movies payload))) = inr probs
              /\ match probs with
                 | Some (p :: ps) =>
                     labels = [] \/ 0 + List.length labels <= List.length (p :: ps)
                 | _ => True
                 end).
    { destruct (Model.predict_proba m) as [f | ] eqn:Hf.
      - destruct Hproba as (proba & Hp & Hrows & Hbound).
        destruct (max_axis1_total proba Hrows) as (ps & Hmax & Hlen).
        exists (Some ps). split.
        + apply call_probs_returns_iff. rewrite Hf. eauto.
        + destruct ps as [ | p ps]; [ exact I | ].
          destruct Hbound as [-> | Hbound]; [ discriminate Hlen | ].
          right. rewrite Hlen. cbn. exact Hbound.
      - exists None. split; [ | exact I ].
        apply call_probs_returns_iff. rewrite Hf. reflexivity. }
    destruct Hprobs as (probs & Hprobs & Hbound).
    destruct (proj2 (build_results_returns_iff labels probs 0 []) (conj Hstr Hbound))
      as [results Hres].
    destruct (usable_makes_gets metadata Hmd) as (name & metrics & Hname & Hmetrics).
    exists {| predictions := results; model_name := name; model_metrics := metrics |}.
    unfold inference. cbn [call_predict]. rewrite Hlabels. cbn [and_then].
    rewrite Hprobs. cbn [and_then]. rewrite Hres. cbn [and_then].
    rewrite Hname. cbn [and_then]. rewrite Hmetrics. reflexivity.
Qed.

(** [predict] answers with a response in exactly one situation: the load
    returns a model (not Python's [None]), the movies list is not empty, the
    model returns string labels, its [predict_proba], if it has one, returns
    a matrix without an empty row that has no row at all or a row for every
    label, and the metadata is absent, empty, or an object whose
    [model_name], if any, is a string and whose [metrics], if any, is an
    object.  In every other situation it raises. *)
Theorem predict_returns_exactly_when_servable
    (e : env) (payload : PredictRequest) (g : globals) :
  (exists response, result (predict e payload g) = inr response)
  <-> (exists m metadata,
         result (load_model e g) = inr (Some m, metadata)
         /\ movies payload <> []
         /\ servable m metadata (pd_DataFrame (map model_dump (movies payload)))).
Proof.
  rewrite predict_stages.
  destruct (load_model e g) as [[[ex | [model metadata]] g1] tr]; unfold result; cbn [fst].
  - split.
    + intros [response H]. destruct ex; discriminate H.
    + intros (m & md & H & _). discriminate H.
  - destruct (movies payload) as [ | movie rest] eqn:Hmovies.
    + split.
      * intros [response H]. discriminate H.
      * intros (m & md & _ & Hne & _). congruence.
    + rewrite <- Hmovies. split.
      * intros [response H].
        destruct (inference model metadata payload) as [ex | response'] eqn:Hinf;
          [ discriminate H | ].
        destruct model as [m | ]; [ | discriminate Hinf ].
        exists m, metadata. split; [ reflexivity | split; [ congruence | ] ].
        apply inference_returns_iff. eauto.
      * intros (m & md & H & _ & Hserv). inversion H; subst.
        destruct (proj2 (inference_returns_iff m md payload) Hserv) as [response ->].
        exists response. reflexivity.
Qed.

(** Metadata from which the response cannot be built (a JSON array, a
    number, an object whose [model_name] is not a string, ...) is still
    loaded, cached and served verbatim by [/model-info]; but then every
    request to [/predict] with a non-empty list raises 500 from the
    inference block, whatever the model answers. *)
Theorem unusable_metadata_is_served_but_breaks_predict
    (e : env) (g g1 : globals) (model : option Model.t) (metadata : value)
    (tr : list io_event) :
  load_model e g = (inr (model, metadata), g1, tr) ->
  ~ usable_metadata metadata ->
  model_info e g = (inr metadata, g1, tr)
  /\ forall payload,
       movies payload <> [] ->
       exists cause,
         predict e payload g
         = (inl (HTTPException 500 ("Inference error: " ++ str cause)), g1, tr).
Proof.
  intros Hload Hbad.
  assert (Ht : truthy metadata = true).
  { destruct (truthy metadata) eqn:Ht; [ reflexivity | ].
    exfalso. apply Hbad. left. exact Ht. }
  split.
  - rewrite model_info_stages, Hload, Ht. reflexivity.
  - intros payload Hne. rewrite predict_stages, Hload.
    destruct (movies payload) as [ | movie rest] eqn:Hmovies; [ congruence | ].
    destruct (inference model metadata payload) as [cause | response] eqn:Hinf.
    + exists cause. reflexivity.
    + exfalso. apply Hbad.
      destruct (inference_returns _ _ _ _ Hinf)
        as (m & labels & probs & _ & _ & _ & _ & Hname & Hmetrics).
      exact (gets_make_usable _ _ _ Hname Hmetrics).
Qed.

Lemma unusable_metadata_is_served_but_breaks_predict_witness :
  ~ usable_metadata numbered_metadata
  /\ model_info (sample_env (Some (inr (Some stub_model))) (Some (inr numbered_metadata)))
       unloaded
     = (inr numbered_metadata,
        {| _model := Some stub_model; _metadata := numbered_metadata |},
        [ExistsModel; JoblibLoad; ExistsMetadata; JsonLoad]).
Proof.
  assert (Hbad : ~ usable_metadata numbered_metadata).
  { intros [Ht | (d & Hd & [Hnone | [s Hs]] & _)].
    - discriminate Ht.
    - inversion Hd; subst d. discriminate Hnone.
    - inversion Hd; subst d. discriminate Hs. }
  split; [ exact Hbad | ].
  exact (proj1 (unusable_metadata_is_served_but_breaks_predict
                  (sample_env (Some (inr (Some stub_model))) (Some (inr numbered_metadata)))
                  unloaded _ _ _ _ eq_refl Hbad)).
Defined.

(** The loop runs off the end of a non-empty [probs] that is shorter than
    the labels. *)
Lemma build_results_index_error (labels : list value) (p : Q) (ps : list Q)
    (i : nat) (acc : list PredictionResult) :
  Forall is_label labels ->
  i <= List.length (p :: ps) ->
  List.length (p :: ps) < i + List.length labels ->
  build_results labels (Some (p :: ps)) i acc
  = inl (PyException "IndexError" "list index out of range").
Proof.
  intros Hlabels. revert i acc.
  induction Hlabels as [ | label rest [s ->] _ IH]; intros i acc Hle Hlt;
    cbn [build_results List.length] in *; [ lia | ].
  unfold confidence_at.
  destruct (nth_error (p :: ps) i) as [c | ] eqn:Hc; cbn.
  - apply IH.
    + assert (i < List.length (p :: ps)) by (apply nth_error_Some; congruence).
      cbn [List.length] in *; lia.
    + cbn [List.length] in *; lia.
  - reflexivity.
Qed.

(** A [predict_proba] that returns some rows, but fewer than the model
    returned labels, makes [/predict] raise 500 with the text of the
    [IndexError]: no result is returned, not even for the records that had a
    row. *)
Theorem too_few_probability_rows_is_an_index_error
    (e : env) (payload : PredictRequest) (g g1 : globals) (m : Model.t)
    (metadata : value) (tr : list io_event) (labels : list value)
    (predict_proba : DataFrame -> exn + list (list Q)) (proba : list (list Q)) :
  load_model e g = (inr (Some m, metadata), g1, tr) ->
  movies payload <> [] ->
  Model.predict m (pd_DataFrame (map model_dump (movies payload))) = inr labels ->
  Forall is_label labels ->
  Model.predict_proba m = Some predict_proba ->
  predict_proba (pd_DataFrame (map model_dump (movies payload))) = inr proba ->
  Forall (fun row => row <> []) proba ->
  proba <> [] ->
  List.length proba < List.length labels ->
  predict e payload g
  = (inl (HTTPException 500 "Inference error: list index out of range"), g1, tr).
Proof.
  intros Hload Hne Hlabels Hstr Hf Hproba Hrows Hsome Hshort.
  rewrite predict_stages, Hload.
  destruct (movies payload) as [ | movie rest] eqn:Hmovies; [ congruence | ].
  rewrite <- Hmovies in *.
  destruct (max_axis1_total proba Hrows) as (ps & Hmax & Hlen).
  assert (Hinf : inference (Some m) metadata payload
                 = inl (PyException "IndexError" "list index out of range")).
  { unfold inference. cbn [call_predict]. rewrite Hlabels. cbn [and_then].
    unfold call_probs. rewrite Hf, Hproba. cbn [and_then]. rewrite Hmax. cbn [and_then].
    destruct ps as [ | p ps]; [ destruct proba; [ congruence | discriminate Hlen ] | ].
    rewrite (build_results_index_error labels p ps 0 [] Hstr); [ reflexivity | lia | ].
    rewrite Hlen. cbn. exact Hshort. }
  rewrite Hinf. reflexivity.
Qed.

Lemma too_few_probability_rows_is_an_index_error_witness :
  load_model (sample_env (Some (inr (Some one_row_model))) None) unloaded
  = (inr (Some one_row_model, VNone),
     {| _model := Some one_row_model; _metadata := VNone |},
     [ExistsModel; JoblibLoad; ExistsMetadata])
  /\ predict (sample_env (Some (inr (Some one_row_model))) None)
       {| movies := [movie_2005; movie_2005] |} unloaded
     = (inl (HTTPException 500 "Inference error: list index out of range"),
        {| _model := Some one_row_model; _metadata := VNone |},
        [ExistsModel; JoblibLoad; ExistsMetadata]).
Proof.
  split; [ reflexivity | ].
  refine (too_few_probability_rows_is_an_index_error
            (sample_env (Some (inr (Some one_row_model))) None)
            {| movies := [movie_2005; movie_2005] |} unloaded _ one_row_model VNone _
            [VStr "Good"; VStr "Good"] _ [[1 # 4; 3 # 4]%Q]
            eq_refl _ eq_refl _ eq_refl eq_refl _ _ _).
  - discriminate.
  - repeat constructor; eexists; reflexivity.
  - repeat constructor. discriminate.
  - discriminate.
  - cbn. lia.
Defined.

(** ** Confidence and the data frame *)

Lemma row_sum_le_max (c : Q) (row : list Q) :
  Forall (fun p => (p <= c)%Q) row ->
  (row_sum row <= inject_Z (Z.of_nat (List.length row)) * c)%Q.
Proof.
  induction 1 as [ | p ps Hp _ IH]; cbn [row_sum List.length].
  - change (inject_Z (Z.of_nat 0)) with 0%Q. lra.
  - rewrite Nat2Z.inj_succ. unfold Z.succ. rewrite inject_Z_plus.
    change (inject_Z 1) with 1%Q. nra.
Qed.

(** With [predict_proba] returning some rows, the confidence of a result is
    the largest entry of the row at its index. *)
Lemma response_confidences
    (e : env) (payload : PredictRequest) (g g' : globals)
    (response : PredictResponse) (tr : list io_event) (m : Model.t)
    (predict_proba : DataFrame -> exn + list (list Q)) (proba : list (list Q)) :
  predict e payload g = (inr response, g', tr) ->
  _model g' = Some m ->
  Model.predict_proba m = Some predict_proba ->
  predict_proba (pd_DataFrame (map model_dump (movies payload))) = inr proba ->
  proba <> [] ->
  forall i r,
    nth_error (predictions response) i = Some r ->
    exists row c, nth_error proba i = Some row /\ confidence r = Some c /\ is_max c row.
Proof.
  intros H Hm Hf Hproba Hsome i r Hr.
  destruct (predict_returns _ _ _ _ _ _ H) as (_ & _ & Hinf).
  destruct (inference_returns _ _ _ _ Hinf)
    as (m' & labels & probs & Hm' & _ & Hprobs & Hres & _).
  rewrite Hm in Hm', Hprobs. inversion Hm'; subst m'.
  apply call_probs_returns_iff in Hprobs. rewrite Hf in Hprobs.
  destruct Hprobs as (proba' & ps & Hproba' & Hmax & ->).
  rewrite Hproba in Hproba'. inversion Hproba'; subst proba'.
  pose proof (max_axis1_rows _ _ Hmax) as Hall.
  destruct (build_results_appends _ _ _ _ _ Hres) as (fresh & Hfresh & _ & Hconf).
  cbn [app] in Hfresh. subst fresh.
  specialize (Hconf i r Hr). cbn [Nat.add] in Hconf.
  destruct ps as [ | p ps]; [ inversion Hall; congruence | ].
  unfold confidence_at in Hconf.
  destruct (nth_error (p :: ps) i) as [c | ] eqn:Hc; [ | discriminate ].
  inversion Hconf as [Hcr].
  destruct (Forall2_nth_error_l _ _ _ _ _ Hall Hc) as (row & Hrow & Hmaxc).
  exists row, c. auto.
Qed.

(** The confidence is never below chance: for a record whose row of
    probabilities sums to 1, the confidence times the number of labels is at
    least 1, that is, the confidence is at least one over the number of
    labels. *)
Theorem confidence_is_at_least_chance
    (e : env) (payload : PredictRequest) (g g' : globals)
    (response : PredictResponse) (tr : list io_event) (m : Model.t)
    (predict_proba : DataFrame -> exn + list (list Q)) (proba : list (list Q))
    (i : nat) (r : PredictionResult) (row : list Q) :
  predict e payload g = (inr response, g', tr) ->
  _model g' = Some m ->
  Model.predict_proba m = Some predict_proba ->
  predict_proba (pd_DataFrame (map model_dump (movies payload))) = inr proba ->
  nth_error (predictions response) i = Some r ->
  nth_error proba i = Some row ->
  (row_sum row == 1)%Q ->
  exists c,
    confidence r = Some c
    /\ (1 <= inject_Z (Z.of_nat (List.length row)) * c)%Q.
Proof.
  intros H Hm Hf Hproba Hr Hrow Hsum.
  assert (Hsome : proba <> []) by (intros ->; destruct i; discriminate Hrow).
  destruct (response_confidences _ _ _ _ _ _ _ _ _ H Hm Hf Hproba Hsome i r Hr)
    as (row' & c & Hrow' & Hc & [_ Hle]).
  rewrite Hrow in Hrow'. inversion Hrow'; subst row'.
  exists c. split; [ exact Hc | ].
  rewrite <- Hsum. apply row_sum_le_max. exact Hle.
Qed.

Lemma confidence_is_at_least_chance_witness :
  predict (sample_env (Some (inr (Some stub_model))) None)
    {| movies := [movie_2005] |} unloaded
  = (inr {| predictions :=
              [ {| rating_category := "Good"; confidence := Some (91 # 100)%Q |} ];
            model_name := "unknown";
            model_metrics := [] |},
     loaded_stub, [ExistsModel; JoblibLoad; ExistsMetadata])
  /\ (row_sum [5 # 100; 91 # 100; 4 # 100] == 1)%Q
  /\ exists c,
       confidence {| rating_category := "Good"; confidence := Some (91 # 100)%Q |}
       = Some c
       /\ (1 <= inject_Z (Z.of_nat (List.length [5 # 100; 91 # 100; 4 # 100]%Q)) * c)%Q.
Proof.
  split; [ reflexivity | split; [ reflexivity | ] ].
  exact (confidence_is_at_least_chance
           (sample_env (Some (inr (Some stub_model))) None)
           {| movies := [movie_2005] |} unloaded _ _ _ stub_model _
           [[5 # 100; 91 # 100; 4 # 100]%Q] 0 _ _
           eq_refl eq_refl eq_refl eq_refl eq_refl eq_refl eq_refl).
Defined.

(** [/health] reports the files, not the cache.  With the model and the
    metadata cached, the model file gone and a metadata path that can be
    tested, it reports "model_missing" and [model_exists] false, while
    [/predict] in that same environment answers every request the cached
    model can serve. *)
Theorem health_reports_model_missing_while_predict_serves
    (e : env) (payload : PredictRequest) (g : globals) (m : Model.t)
    (metadata_content : option (exn + value)) :
  _model g = Some m ->
  _metadata g <> VNone ->
  model_file e = None ->
  metadata_file e = Stat metadata_content ->
  movies payload <> [] ->
  servable m (_metadata g) (pd_DataFrame (map model_dump (movies payload))) ->
  exists report response,
    result (health e g) = inr report
    /\ field report "status" = Some (VStr "model_missing")
    /\ field report "model_exists" = Some (VBool false)
    /\ predict e payload g = (inr response, g, []).
Proof.
  intros Hm Hmd Hf Hmf Hne Hserv.
  assert (Hn : is_None (_metadata g) = false)
    by (destruct (_metadata g); [ congruence | reflexivity .. ]).
  destruct (proj2 (inference_returns_iff m (_metadata g) payload) Hserv)
    as [response Hinf].
  assert (Hpredict : predict e payload g = (inr response, g, [])).
  { rewrite predict_stages, (load_model_cached e g m Hm), Hn.
    destruct (movies payload) as [ | movie rest] eqn:Hmovies; [ congruence | ].
    rewrite Hinf. reflexivity. }
  unfold health, MODEL_PATH_exists, METADATA_PATH_exists, exists_, try_except, bind,
    emit, ret, result. rewrite Hf, Hmf.
  destruct metadata_content as [r | ]; cbn;
    eexists; exists response; repeat split; exact Hpredict.
Qed.

Lemma health_reports_model_missing_while_predict_serves_witness :
  servable stub_model rf_v2 (pd_DataFrame (map model_dump [movie_2005]))
  /\ exists report response,
       result (health (sample_env None None)
                 {| _model := Some stub_model; _metadata := rf_v2 |})
       = inr report
       /\ field report "status" = Some (VStr "model_missing")
       /\ field report "model_exists" = Some (VBool false)
       /\ predict (sample_env None None) {| movies := [movie_2005] |}
            {| _model := Some stub_model; _metadata := rf_v2 |}
          = (inr response, {| _model := Some stub_model; _metadata := rf_v2 |}, []).
Proof.
  assert (Hserv : servable stub_model rf_v2 (pd_DataFrame (map model_dump [movie_2005]))).
  { split.
    - right. eexists. split; [ reflexivity | split; right; eexists; reflexivity ].
    - exists [VStr "Good"]. split; [ reflexivity | split ].
      + repeat constructor. eexists; reflexivity.
      + cbn. eexists. split; [ reflexivity | split ].
        * repeat constructor. discriminate.
        * right. cbn. lia. }
  split; [ exact Hserv | ].
  refine (health_reports_model_missing_while_predict_serves
            (sample_env None None) {| movies := [movie_2005] |}
            {| _model := Some stub_model; _metadata := rf_v2 |} stub_model None
            eq_refl _ eq_refl eq_refl _ Hserv); discriminate.
Defined.

(** And the other way round: with nothing cached, a model file that is
    there but does not deserialize and a metadata path that can be tested,
    [/health] reports "healthy" while [/predict] raises, on every request,
    the empty list included. *)
Theorem health_reports_healthy_while_predict_fails
    (e : env) (payload : PredictRequest) (g : globals) (cause : exn)
    (metadata_content : option (exn + value)) :
  _model g = None ->
  model_file e = Some (inl cause) ->
  metadata_file e = Stat metadata_content ->
  exists report status detail,
    result (health e g) = inr report
    /\ field report "status" = Some (VStr "healthy")
    /\ predict e payload g = (inl (HTTPException status detail), g, [ExistsModel; JoblibLoad])
    /\ (status = 500 \/ status = 503).
Proof.
  intros Hm Hf Hmf.
  rewrite predict_stages, (proj2 (load_model_unloaded_fails e g Hm) cause Hf).
  unfold health, MODEL_PATH_exists, METADATA_PATH_exists, exists_, try_except, bind, emit,
    ret, result. rewrite Hf, Hmf.
  destruct metadata_content; cbn;
    destruct cause; do 3 eexists; repeat split; auto.
Qed.

Lemma health_reports_healthy_while_predict_fails_witness :
  model_file (sample_env (Some (inl unpickling_error)) None) = Some (inl unpickling_error)
  /\ exists report status detail,
       result (health (sample_env (Some (inl unpickling_error)) None) unloaded) = inr report
       /\ field report "status" = Some (VStr "healthy")
       /\ predict (sample_env (Some (inl unpickling_error)) None) empty_request unloaded
          = (inl (HTTPException status detail), unloaded, [ExistsModel; JoblibLoad])
       /\ (status = 500 \/ status = 503).
Proof.
  split; [ reflexivity | ].
  exact (health_reports_healthy_while_predict_fails
           (sample_env (Some (inl unpickling_error)) None) empty_request unloaded
           unpickling_error None eq_refl eq_refl eq_refl).
Defined.

(** The absence of the metadata file is not remembered.  With a handle
    cached and no metadata, requests served while there is no metadata file
    leave [_metadata] empty and parse nothing; the first request to
    [/predict] or [/model-info] served once a file is there parses it and
    caches the document it holds. *)
Theorem late_metadata_is_picked_up
    (requests : list (env * endpoint)) (g : globals) (m : Model.t)
    (e : env) (ep : endpoint) (doc : value) :
  _model g = Some m ->
  _metadata g = VNone ->
  Forall (fun request => metadata_file (fst request) = None) requests ->
  metadata_file e = Some (inr doc) ->
  loads ep = true ->
  _metadata (after requests g) = VNone
  /\ count JsonLoad (accesses requests g) = 0
  /\ _metadata (final (serve e ep (after requests g))) = doc
  /\ trace (serve e ep (after requests g)) = [ExistsMetadata; JsonLoad].
Proof.
  intros Hm Hmd Hall Hfile Hep.
  assert (Hrun : _model (after requests g) = Some m
                 /\ _metadata (after requests g) = VNone
                 /\ count JsonLoad (accesses requests g) = 0).
  { revert g Hm Hmd. induction Hall as [ | [e0 ep0] rest Hf _ IH]; intros g Hm Hmd;
      cbn [after accesses]; [ repeat split; assumption | ].
    cbn [fst] in Hf.
    assert (Hload : load_model e0 g = (inr (Some m, VNone), g, [ExistsMetadata])).
    { rewrite (load_model_cached e0 g m Hm), Hmd, Hf. cbn [is_None].
      rewrite <- Hmd. reflexivity. }
    pose proof (serve_effects e0 ep0 g) as He. rewrite Hload in He.
    rewrite count_app.
    assert (Hstep : final (serve e0 ep0 g) = g
                    /\ count JsonLoad (trace (serve e0 ep0 g)) = 0).
    { serve_cases ep0 He; split; reflexivity. }
    destruct Hstep as [-> ->].
    destruct (IH g Hm Hmd) as (IHm & IHmd & IHjl).
    rewrite IHjl. repeat split; assumption. }
  destruct Hrun as (Hm' & Hmd' & Hjl).
  split; [ exact Hmd' | split; [ exact Hjl | ] ].
  pose proof (serve_effects e ep (after requests g)) as He.
  rewrite (load_model_cached e _ m Hm'), Hmd', Hfile in He. cbn [is_None] in He.
  destruct ep; try discriminate Hep; destruct He as [-> ->]; split; reflexivity.
Qed.

Lemma late_metadata_is_picked_up_witness :
  _model loaded_stub = Some stub_model
  /\ Forall (fun request => metadata_file (fst request) = None)
       [ (sample_env None None, GetModelInfo);
         (sample_env None None, PostPredict {| movies := [movie_2005] |}) ]
  /\ _metadata (final (serve (sample_env None (Some (inr rf_v2))) GetModelInfo
                         (after [ (sample_env None None, GetModelInfo);
                                  (sample_env None None,
                                   PostPredict {| movies := [movie_2005] |}) ]
                                loaded_stub)))
     = rf_v2.
Proof.
  assert (Hall : Forall (fun request => metadata_file (fst request) = None)
                   [ (sample_env None None, GetModelInfo);
                     (sample_env None None, PostPredict {| movies := [movie_2005] |}) ]).
  { repeat constructor. }
  split; [ reflexivity | split; [ exact Hall | ] ].
  exact (proj1 (proj2 (proj2
           (late_metadata_is_picked_up _ loaded_stub stub_model
              (sample_env None (Some (inr rf_v2))) GetModelInfo rf_v2
              eq_refl eq_refl Hall eq_refl eq_refl)))).
Defined.

(** Metadata that is there but falsy for Python (the empty object, the empty
    array, the empty string, zero, [false]) counts as absent: [/model-info]
    answers with the "No metadata available" message, and every response of
    [/predict] carries the name "unknown" and no metrics. *)
Theorem falsy_metadata_counts_as_absent
    (e : env) (g g1 : globals) (model : option Model.t) (metadata : value)
    (tr : list io_event) :
  load_model e g = (inr (model, metadata), g1, tr) ->
  truthy metadata = false ->
  model_info e g = (inr no_metadata_message, g1, tr)
  /\ forall payload response,
       result (predict e payload g) = inr response ->
       model_name response = "unknown" /\ model_metrics response = [].
Proof.
  intros Hload Hfalsy. split.
  - rewrite model_info_stages, Hload, Hfalsy. reflexivity.
  - intros payload response. rewrite predict_stages, Hload.
    destruct (movies payload) as [ | movie rest]; [ discriminate | ].
    destruct (inference model metadata payload) as [cause | response'] eqn:Hinf;
      [ discriminate | ].
    unfold result; cbn [fst]. intros H; inversion H; subst response'.
    destruct (inference_returns _ _ _ _ Hinf)
      as (m & labels & probs & _ & _ & _ & _ & Hname & Hmetrics).
    rewrite Hfalsy in Hname, Hmetrics.
    inversion Hname; inversion Hmetrics. split; reflexivity.
Qed.

Lemma falsy_metadata_counts_as_absent_witness :
  load_model (sample_env (Some (inr (Some stub_model))) (Some (inr (VDict [])))) unloaded
  = (inr (Some stub_model, VDict []),
     {| _model := Some stub_model; _metadata := VDict [] |},
     [ExistsModel; JoblibLoad; ExistsMetadata; JsonLoad])
  /\ truthy (VDict []) = false
  /\ model_info (sample_env (Some (inr (Some stub_model))) (Some (inr (VDict [])))) unloaded
     = (inr no_metadata_message,
        {| _model := Some stub_model; _metadata := VDict [] |},
        [ExistsModel; JoblibLoad; ExistsMetadata; JsonLoad]).
Proof.
  split; [ reflexivity | split; [ reflexivity | ] ].
  exact (proj1 (falsy_metadata_counts_as_absent
                  (sample_env (Some (inr (Some stub_model))) (Some (inr (VDict []))))
                  unloaded _ _ _ _ eq_refl eq_refl)).
Defined.

(** With nothing cached and a model path that cannot be tested, the
    exception of the test is what each endpoint reports: [/predict] raises
    500 with the "Error loading model" detail (not 503, unless the exception
    is a [FileNotFoundError]), [/model-info] raises 500 with the bare text,
    and [/health] answers with status "error".  None of them changes the
    globals or goes past that first test. *)
Theorem untestable_model_path_is_a_500
    (e : env) (payload : PredictRequest) (g : globals) (ex : exn) :
  _model g = None ->
  model_file e = Inaccessible ex ->
  (forall msg, ex <> FileNotFoundError msg) ->
  predict e payload g
  = (inl (HTTPException 500 ("Error loading model: " ++ str ex)), g, [ExistsModel])
  /\ model_info e g = (inl (HTTPException 500 (str ex)), g, [ExistsModel])
  /\ health e g
     = (inr (VDict [ ("status", VStr "error"); ("detail", VStr (str ex)) ]), g,
        [ExistsModel]).
Proof.
  intros Hm Hf Hex.
  rewrite predict_stages, model_info_stages.
  rewrite (load_model_unloaded_inaccessible e g Hm ex Hf).
  split; [ | split; [ reflexivity | ] ].
  - destruct ex; try reflexivity. exfalso. exact (Hex msg eq_refl).
  - unfold health, MODEL_PATH_exists, exists_, try_except, bind, emit, ret, raise.
    rewrite Hf. reflexivity.
Qed.

Lemma untestable_model_path_is_a_500_witness :
  model_file locked_env = Inaccessible permission_error
  /\ predict locked_env {| movies := [movie_2005] |} unloaded
     = (inl (HTTPException 500
               "Error loading model: [Errno 13] Permission denied: 'models/best_model.pkl'"),
        unloaded, [ExistsModel]).
Proof.
  split; [ reflexivity | ].
  refine (proj1 (untestable_model_path_is_a_500
                   locked_env {| movies := [movie_2005] |} unloaded permission_error
                   eq_refl eq_refl _)).
  intros msg. discriminate.
Defined.
